(** * Washco authentication core: a shallow embedding and its properties

    The development follows the backend's auth module:
    - [auth.repository.js]: the SQL statements over [users] and
      [refresh_tokens], modelled as functions on two tables;
    - [auth.service.js]: register, login, googleSignIn, refreshAccessToken,
      logout, logoutAll, changePassword;
    - [auth.controller.js]: the parts of the HTTP handlers that decide what
      reaches the service (the destructuring of [req.body], the role filter).

    JavaScript values that can be [undefined] or [null] at a call site are
    kept as [jsval]; asynchronous calls are sequential here (every call is
    awaited in the source), so a handler is a function from the store to an
    outcome and a new store. *)

From stdpp Require Import gmap strings list fin_maps pretty.
From Stdlib Require Import ZArith Ascii.

Open Scope string_scope.
Open Scope Z_scope.

(** ** JavaScript values

    [JNum] carries the integers among the numbers; the text the driver
    sends for one is a collaborator's answer ([number_text] below), so that
    nothing is assumed of how a large number prints. *)

Inductive jsval : Type :=
| JUndefined
| JNull
| JBool (b : bool)
| JNum (n : Z)
| JStr (s : string).

#[global] Instance jsval_eq_dec : EqDecision jsval.
Proof. solve_decision. Defined.

(** [!!v] in JavaScript. *)
Definition truthy (v : jsval) : bool :=
  match v with
  | JUndefined | JNull => false
  | JBool b => b
  | JNum n => negb (Z.eqb n 0)
  | JStr s => negb (String.eqb s "")
  end.

(** [a || b] *)
Definition js_or (a b : jsval) : jsval := if truthy a then a else b.

(** A nullable text column read back into JavaScript. *)
Definition of_column (c : option string) : jsval :=
  match c with Some s => JStr s | None => JNull end.

(** Object literals and destructuring: a missing key reads as [undefined]. *)
Definition prop (o : gmap string jsval) (k : string) : jsval :=
  default JUndefined (o !! k).

(** ** Errors

    The three error classes come from [middleware/errorHandler.js]; a
    [TypeError] is what the runtime raises on a property access on
    [undefined] or [null]; [DatabaseError] is a statement the server
    rejects (a unique constraint, a value too long for its column, a value
    its column's type does not read); [ValidationError] stands for a body turned down by
    [validateBody]. *)

Inductive exn : Type :=
| BadRequestError (msg : string)
| UnauthorizedError (msg : string)
| ConflictError (msg : string)
| TypeError
| DatabaseError (detail : string)
| ValidationError.

#[global] Instance exn_eq_dec : EqDecision exn.
Proof. solve_decision. Defined.

(** The specification's names for what the service throws. *)
Definition AccountExists : exn :=
  ConflictError "An account with this email already exists.".
Definition InvalidCredentials : exn :=
  UnauthorizedError "Invalid email or password.".
Definition WrongCurrentPassword : exn :=
  UnauthorizedError "Current password is incorrect.".
Definition NotFound : exn := BadRequestError "User not found.".
Definition Unauthorized : exn := UnauthorizedError "Refresh token required.".
Definition InvalidToken : exn := UnauthorizedError "Invalid refresh token.".
Definition TokenRevoked : exn :=
  UnauthorizedError "Refresh token has been revoked.".
Definition TokenExpired : exn :=
  UnauthorizedError "Refresh token has expired.".

Inductive outcome (A : Type) : Type :=
| Ok (a : A)
| Throw (e : exn).
Arguments Ok {A} a.
Arguments Throw {A} e.

(** ** The store

    The columns the auth module selects or writes; [created_at], which no
    path of the module reads back into a decision, is left out. NULL is
    [None]. *)

Record user_row := mkUser {
  u_id : Z;
  u_email : string;
  u_password_hash : option string;
  u_full_name : option string;
  u_phone : option string;
  u_role : string;
  u_tenant_id : option Z;
  u_is_verified : bool;
  u_google_id : option string;
  u_avatar_url : option string
}.

Record token_row := mkToken {
  rt_id : Z;
  rt_user_id : Z;
  rt_token_hash : string;
  rt_expires_at : Z;
  rt_is_revoked : bool
}.

Record db := mkDb {
  users : list user_row;
  refresh_tokens : list token_row;
  users_seq : Z;
  tokens_seq : Z
}.

#[global] Instance user_row_eq_dec : EqDecision user_row.
Proof. solve_decision. Defined.
#[global] Instance token_row_eq_dec : EqDecision token_row.
Proof. solve_decision. Defined.

(** Modelled from the spec: the statement creating [users] is not among the
    sources; sections 3 and 6 give it a unique id and a unique email. The
    sources add [google_id ... UNIQUE] (migration 004) and the partial
    unique index on [phone]; NULLs are excluded in both. *)
Definition users_ok (us : list user_row) : bool :=
  bool_decide (NoDup (u_id <$> us))
  && bool_decide (NoDup (u_email <$> us))
  && bool_decide (NoDup (omap u_google_id us))
  && bool_decide (NoDup (omap u_phone us)).

(** Migration 004 declares [google_id VARCHAR(255)] and
    [avatar_url VARCHAR(500)]. A value assigned to such a column is stored
    as it is when it fits; when it is longer the server stores its first
    characters if all the others are spaces and rejects the statement
    otherwise. The widths of the other text columns are in the statement
    creating the table, which is not among the sources; none is put on
    them. *)
Fixpoint take_chars (n : nat) (s : string) : string :=
  match n, s with
  | S n', String c s' => String c (take_chars n' s')
  | _, _ => EmptyString
  end.

Fixpoint drop_chars (n : nat) (s : string) : string :=
  match n, s with
  | S n', String c s' => drop_chars n' s'
  | _, _ => s
  end.

Fixpoint all_spaces (s : string) : bool :=
  match s with
  | EmptyString => true
  | String c s' => Ascii.eqb c " "%char && all_spaces s'
  end.

Definition fit_varchar (n : nat) (s : string) : outcome string :=
  if all_spaces (drop_chars n s) then Ok (take_chars n s)
  else Throw (DatabaseError "value too long for type character varying").

Definition fit_column (n : nat) (c : option string) : outcome (option string) :=
  match c with
  | None => Ok None
  | Some s => match fit_varchar n s with
              | Ok s' => Ok (Some s')
              | Throw e => Throw e
              end
  end.

(** ** Handlers: store passing with exceptions *)

Definition M (A : Type) : Type := db -> outcome A * db.

Definition ret {A} (a : A) : M A := fun d => (Ok a, d).
Definition throw {A} (e : exn) : M A := fun d => (Throw e, d).
Definition bind {A B} (m : M A) (k : A -> M B) : M B :=
  fun d => match m d with
           | (Ok a, d') => k a d'
           | (Throw e, d') => (Throw e, d')
           end.
(** An awaited call into a collaborator that does not touch the store. *)
Definition lift {A} (o : outcome A) : M A := fun d => (o, d).

Notation "'let*' x ':=' m 'in' k" := (bind m (fun x => k))
  (at level 10, x name, m at level 100, k at level 200).
Notation "'run' m 'then' k" := (bind m (fun _ => k))
  (at level 10, m at level 100, k at level 200).

(** ** Collaborators

    Code the auth module calls but does not define: the runtime's
    [String.prototype.toLowerCase], [utils/helpers.js] ([hashToken],
    [parseDuration]), the configuration, argon2, jsonwebtoken, the Google
    client and the audit log. Nothing is assumed about them here; a property
    that needs one says so. *)

Record access_claims := mkClaims {
  c_userId : Z;
  c_email : string;
  c_role : string;
  c_tenantId : option Z
}.

(** The payload of a verified Google ID token; [None] is [undefined]. *)
Record google_payload := mkPayload {
  g_sub : string;
  g_email : option string;
  g_name : option string;
  g_picture : option string
}.

Record Deps := mkDeps {
  toLowerCase : string -> string;
  hashToken : string -> string;
  (** [parseDuration(config.jwt.refreshExpiresIn)], in milliseconds *)
  refreshLifetime : Z;
  (** [argon2.hash(plain, options)] with the salt it draws *)
  argon2_hash : string -> string -> string;
  (** [argon2.verify(digest, plain)]; the digest comes from a nullable
      column and the plain text from a request body *)
  argon2_verify : option string -> jsval -> outcome bool;
  (** [jwt.sign(claims, secret, { expiresIn })] at a given clock reading *)
  jwt_sign : Z -> access_claims -> string;
  (** [config.google.clientId] *)
  google_clientId : option string;
  (** [client.verifyIdToken({ idToken, audience })] then [getPayload()] *)
  verifyIdToken : string -> string -> outcome google_payload;
  (** [createAuditLog({ userId, action, ... })] *)
  createAuditLog : string -> Z -> outcome unit;
  (** [String(n)], the text the driver sends for a number *)
  number_text : Z -> string;
  (** what the server makes of a value that is not a boolean, bound to the
      parameter of [is_verified]: the boolean it parses from the text sent,
      or a rejection of the statement *)
  bind_boolean : jsval -> outcome bool;
  (** the same for a value that is not null, bound to the parameter of
      [tenant_id] *)
  bind_tenant_id : jsval -> outcome (option Z)
}.

(** ** Values bound to the parameters of a statement

    The driver sends [undefined] and [null] as NULL, a string as it is, a
    boolean as 'true' or 'false' and a number as [String(n)]; the server
    reads what it is sent as a value of the parameter's type. The statements
    creating the columns of [is_verified] and [tenant_id] are not among the
    sources, so what becomes of a value of another kind bound to them is a
    collaborator's answer. *)

Definition to_column (D : Deps) (v : jsval) : option string :=
  match v with
  | JStr s => Some s
  | JUndefined | JNull => None
  | JBool true => Some "true"
  | JBool false => Some "false"
  | JNum n => Some (number_text D n)
  end.

Definition to_bool_column (D : Deps) (v : jsval) : outcome bool :=
  match v with
  | JBool b => Ok b
  | _ => bind_boolean D v
  end.

Definition to_id_column (D : Deps) (v : jsval) : outcome (option Z) :=
  match v with
  | JUndefined | JNull => Ok None
  | _ => bind_tenant_id D v
  end.

(** Sequencing of two bindings: the first rejection wins. *)
Definition and_then {A B} (o : outcome A) (k : A -> outcome B) : outcome B :=
  match o with
  | Ok a => k a
  | Throw e => Throw e
  end.

(** ** auth.repository.js *)

Module authRepository.
Section WithDeps.
Context (D : Deps).

(** [email.toLowerCase()] on whatever the caller passed. *)
Definition call_toLowerCase (v : jsval) : outcome string :=
  match v with
  | JStr s => Ok (toLowerCase D s)
  | _ => Throw TypeError
  end.

(** The statements that do not select [password_hash] return rows without
    it. *)
Definition without_hash (u : user_row) : user_row :=
  mkUser (u_id u) (u_email u) None (u_full_name u) (u_phone u) (u_role u)
         (u_tenant_id u) (u_is_verified u) (u_google_id u) (u_avatar_url u).

Definition select_users (P : user_row -> Prop) `{!forall u, Decision (P u)}
  : M (list user_row) :=
  fun d => (Ok (filter P (users d)), d).

Definition all_users : M (list user_row) := fun d => (Ok (users d), d).

Definition findByEmail (email : jsval) : M (option user_row) :=
  let* e := lift (call_toLowerCase email) in
  let* rows := select_users (fun u => u_email u = e) in
  ret (head rows).

Definition findById (id : Z) : M (option user_row) :=
  let* rows := select_users (fun u => u_id u = id) in
  ret (head (without_hash <$> rows)).

(** [google_id = $1] is never true of a NULL parameter. *)
Definition findByGoogleId (googleId : jsval) : M (option user_row) :=
  let* rows := select_users (fun u => is_Some (to_column D googleId)
                                      /\ u_google_id u = to_column D googleId) in
  ret (head rows).

Record new_user := mkNewUser {
  n_email : string;
  n_passwordHash : option string;
  n_fullName : option string;
  n_phone : jsval;
  n_role : string;
  n_tenantId : option Z;
  n_googleId : option string;
  n_avatarUrl : option string
}.

(** A write whose values have been bound is committed when the table still
    meets its unique constraints and rejected as a whole otherwise. *)
Definition write_users (us' : list user_row) : M unit :=
  fun d => if users_ok us'
           then (Ok tt, mkDb us' (refresh_tokens d) (users_seq d) (tokens_seq d))
           else (Throw (DatabaseError "unique_violation"), d).

(** The id of a new row: the next value of the table's sequence. *)
Definition next_user_id : M Z :=
  fun d => (Ok (users_seq d),
            mkDb (users d) (refresh_tokens d) (users_seq d + 1) (tokens_seq d)).

(** The [INSERT]: the two bounded columns are fitted when the values are
    bound, before the row gets its id; a row that breaks a unique
    constraint is rejected after the sequence has advanced. *)
Definition create (n : new_user) : M user_row :=
  let* googleId := lift (fit_column 255 (n_googleId n)) in
  let* avatarUrl := lift (fit_column 500 (n_avatarUrl n)) in
  let* i := next_user_id in
  let row := mkUser i (toLowerCase D (n_email n)) (n_passwordHash n)
                    (n_fullName n) (to_column D (js_or (n_phone n) JNull))
                    (n_role n) (n_tenantId n)
                    (String.eqb (n_role n) "super_admin"
                     || truthy (of_column (n_googleId n)))
                    googleId avatarUrl in
  let* us := all_users in
  run write_users (us ++ [row]) then
  ret (without_hash row).

(** The values of a [SET] clause once bound: [None] for a column the
    statement does not set. *)
Record bound_update := mkBound {
  s_full_name : option (option string);
  s_phone : option (option string);
  s_is_verified : option bool;
  s_tenant_id : option (option Z);
  s_google_id : option (option string);
  s_avatar_url : option (option string)
}.

(** One [if (data.k !== undefined)] of [update]: the value pushed, bound to
    its parameter. *)
Definition bind_field {X} (v : jsval) (bind : jsval -> outcome X)
  : outcome (option X) :=
  if decide (v = JUndefined) then Ok None
  else and_then (bind v) (fun x => Ok (Some x)).

(** The values of the [SET] clause, bound in its order; the server reads
    them before it looks for the row. *)
Definition bind_update (data : gmap string jsval) : outcome bound_update :=
  and_then (bind_field (prop data "fullName") (fun v => Ok (to_column D v)))
    (fun fullName =>
  and_then (bind_field (prop data "phone") (fun v => Ok (to_column D v)))
    (fun phone =>
  and_then (bind_field (prop data "isVerified") (to_bool_column D))
    (fun isVerified =>
  and_then (bind_field (prop data "tenantId") (to_id_column D))
    (fun tenantId =>
  and_then (bind_field (prop data "googleId")
              (fun v => fit_column 255 (to_column D v)))
    (fun googleId =>
  and_then (bind_field (prop data "avatarUrl")
              (fun v => fit_column 500 (to_column D v)))
    (fun avatarUrl =>
  Ok (mkBound fullName phone isVerified tenantId googleId avatarUrl))))))).

Definition apply_update (b : bound_update) (u : user_row) : user_row :=
  mkUser (u_id u) (u_email u) (u_password_hash u)
         (default (u_full_name u) (s_full_name b))
         (default (u_phone u) (s_phone b))
         (u_role u)
         (default (u_tenant_id u) (s_tenant_id b))
         (default (u_is_verified u) (s_is_verified b))
         (default (u_google_id u) (s_google_id b))
         (default (u_avatar_url u) (s_avatar_url b)).

(** [fields.length === 0] *)
Definition no_fields (data : gmap string jsval) : bool :=
  bool_decide (Forall (fun k => prop data k = JUndefined)
    ["fullName"; "phone"; "isVerified"; "tenantId"; "googleId"; "avatarUrl"]).

Definition update (id : Z) (data : gmap string jsval) : M (option user_row) :=
  if no_fields data then ret None
  else
    let* b := lift (bind_update data) in
    let* us := all_users in
    let us' := (fun u => if decide (u_id u = id) then apply_update b u else u)
                 <$> us in
    run write_users us' then
    ret (head (without_hash <$> filter (fun u => u_id u = id) us')).

(** Modelled from the spec: the statement creating [refresh_tokens] is not
    among the sources; a row starts unrevoked (section 3) and gets a
    server-generated id. *)
Definition createRefreshToken (userId : Z) (tokenHash : string) (expiresAt : Z)
  : M unit :=
  fun d => (Ok tt,
            mkDb (users d)
                 (refresh_tokens d
                  ++ [mkToken (tokens_seq d) userId tokenHash expiresAt false])
                 (users_seq d) (tokens_seq d + 1)).

(** A row of [refresh_tokens rt JOIN users u ON u.id = rt.user_id]. *)
Record token_data := mkTokenData {
  td_id : Z;
  td_user_id : Z;
  td_expires_at : Z;
  td_is_revoked : bool;
  td_email : string;
  td_full_name : option string;
  td_role : string;
  td_tenant_id : option Z;
  td_is_verified : bool
}.

Definition join_users (us : list user_row) (t : token_row) : list token_data :=
  (fun u => mkTokenData (rt_id t) (rt_user_id t) (rt_expires_at t)
                        (rt_is_revoked t) (u_email u) (u_full_name u)
                        (u_role u) (u_tenant_id u) (u_is_verified u))
    <$> filter (fun u => u_id u = rt_user_id t) us.

Definition findRefreshToken (tokenHash : string) : M (option token_data) :=
  fun d => (Ok (head (filter (fun t => rt_token_hash t = tokenHash)
                             (refresh_tokens d)
                      ≫= join_users (users d))), d).

Definition revoke (t : token_row) : token_row :=
  mkToken (rt_id t) (rt_user_id t) (rt_token_hash t) (rt_expires_at t) true.

Definition update_tokens (f : token_row -> token_row) : M unit :=
  fun d => (Ok tt, mkDb (users d) (f <$> refresh_tokens d)
                        (users_seq d) (tokens_seq d)).

Definition revokeRefreshToken (tokenHash : string) : M unit :=
  update_tokens (fun t => if decide (rt_token_hash t = tokenHash)
                          then revoke t else t).

Definition revokeAllUserTokens (userId : Z) : M unit :=
  update_tokens (fun t => if decide (rt_user_id t = userId)
                          then revoke t else t).

Definition cleanupExpiredTokens (now : Z) : M unit :=
  fun d => (Ok tt,
            mkDb (users d)
                 (filter (fun t => ~ (rt_expires_at t < now
                                      \/ rt_is_revoked t = true))
                         (refresh_tokens d))
                 (users_seq d) (tokens_seq d)).

Definition set_password (h : string) (u : user_row) : user_row :=
  mkUser (u_id u) (u_email u) (Some h) (u_full_name u) (u_phone u) (u_role u)
         (u_tenant_id u) (u_is_verified u) (u_google_id u) (u_avatar_url u).

Definition updatePassword (id : Z) (passwordHash : string)
  : M (option user_row) :=
  let* us := all_users in
  let us' := (fun u => if decide (u_id u = id) then set_password passwordHash u
                       else u) <$> us in
  run write_users us' then
  ret (head (without_hash <$> filter (fun u => u_id u = id) us')).

End WithDeps.
End authRepository.

(** ** auth.service.js *)

Module authService.
Import authRepository.
Section WithDeps.
Context (D : Deps).

(** What the service returns to its callers. *)
Record register_view := mkRegisterView {
  rv_id : Z;
  rv_email : string;
  rv_fullName : option string;
  rv_role : string
}.

Record user_view := mkUserView {
  v_id : Z;
  v_email : string;
  v_fullName : option string;
  v_role : string;
  v_tenantId : option Z;
  v_avatarUrl : option string
}.

Record login_result := mkLoginResult {
  l_user : user_view;
  l_accessToken : string;
  l_refreshToken : string;
  l_expiresAt : Z
}.

Record refresh_view := mkRefreshView {
  fv_id : Z;
  fv_email : string;
  fv_fullName : option string;
  fv_role : string;
  fv_tenantId : option Z
}.

Record refresh_result := mkRefreshResult {
  r_accessToken : string;
  r_user : refresh_view
}.

(** An optional string as a JavaScript value; [None] is [undefined]. *)
Definition opt_js (o : option string) : jsval :=
  match o with Some s => JStr s | None => JUndefined end.

Definition generateAccessToken (now : Z) (i : Z) (e r : string)
  (t : option Z) : string :=
  jwt_sign D now (mkClaims i e r t).

(** [rnd] is what [generateToken(32)] drew. *)
Definition generateRefreshToken (now : Z) (rnd : string) : string * string * Z :=
  (rnd, hashToken D rnd, now + refreshLifetime D).

Definition register (salt : string) (email password : string)
  (fullName : option string) (phone : jsval) (role : option string)
  : M register_view :=
  let role := default "customer" role in
  let* existingUser := authRepository.findByEmail D (JStr email) in
  match existingUser with
  | Some _ => throw AccountExists
  | None =>
      let passwordHash := argon2_hash D salt password in
      let* user := authRepository.create D (mkNewUser email (Some passwordHash) fullName phone
                                       role None None None) in
      ret (mkRegisterView (u_id user) (u_email user) (u_full_name user)
                          (u_role user))
  end.

Definition view_of (user : user_row) : user_view :=
  mkUserView (u_id user) (u_email user) (u_full_name user) (u_role user)
             (u_tenant_id user) (u_avatar_url user).

(** The tail shared by [login] and [googleSignIn]. *)
Definition issue_tokens (now : Z) (rnd : string) (user : user_row)
  : M login_result :=
  let accessToken := generateAccessToken now (u_id user) (u_email user)
                                         (u_role user) (u_tenant_id user) in
  let '(refreshToken, refreshTokenHash, expiresAt) :=
    generateRefreshToken now rnd in
  run authRepository.createRefreshToken (u_id user) refreshTokenHash expiresAt then
  ret (mkLoginResult (view_of user) accessToken refreshToken expiresAt).

Definition login (now : Z) (rnd : string) (email password : jsval)
  : M login_result :=
  let* user := authRepository.findByEmail D email in
  match user with
  | None => throw InvalidCredentials
  | Some user =>
      let* isValid := lift (argon2_verify D (u_password_hash user) password) in
      if negb isValid then throw InvalidCredentials
      else issue_tokens now rnd user
  end.

(** [email.split('@')[0]] *)
Fixpoint local_part (s : string) : string :=
  match s with
  | EmptyString => EmptyString
  | String c s' => if Ascii.eqb c "@"%char then EmptyString
                   else String c (local_part s')
  end.

Definition googleSignIn (now : Z) (rnd : string) (idToken : string)
  : M login_result :=
  match google_clientId D with
  | None | Some EmptyString =>
      throw (BadRequestError "Google Sign-In is not configured.")
  | Some clientId =>
      match verifyIdToken D idToken clientId with
      | Throw _ => throw (UnauthorizedError "Invalid Google token.")
      | Ok payload =>
          let googleId := g_sub payload in
          let name := g_name payload in
          let picture := g_picture payload in
          match g_email payload with
          | None | Some EmptyString =>
              throw (BadRequestError
                       "Google account does not have an email address.")
          | Some email =>
              let* byGoogle := authRepository.findByGoogleId D (JStr googleId) in
              let* user :=
                match byGoogle with
                | Some user => ret (Some user)
                | None =>
                    let* byEmail := authRepository.findByEmail D (JStr email) in
                    match byEmail with
                    | Some user =>
                        authRepository.update D (u_id user)
                          (<["googleId" := JStr googleId]>
                           (<["avatarUrl" :=
                                js_or (opt_js picture)
                                      (of_column (u_avatar_url user))]>
                            (<["isVerified" := JBool true]> ∅)))
                    | None =>
                        let* user :=
                          authRepository.create D (mkNewUser email None
                            (to_column D (js_or (opt_js name)
                                              (JStr (local_part email))))
                            JUndefined "customer" None (Some googleId)
                            (to_column D (js_or (opt_js picture) JNull))) in
                        ret (Some user)
                    end
                end in
              match user with
              | None => throw TypeError
              | Some user => issue_tokens now rnd user
              end
          end
      end
  end.

Definition refreshAccessToken (now : Z) (refreshToken : option string)
  : M refresh_result :=
  match refreshToken with
  | None | Some EmptyString => throw Unauthorized
  | Some refreshToken =>
      let tokenHash := hashToken D refreshToken in
      let* tokenData := authRepository.findRefreshToken tokenHash in
      match tokenData with
      | None => throw InvalidToken
      | Some tokenData =>
          if td_is_revoked tokenData then throw TokenRevoked
          else if td_expires_at tokenData <? now then throw TokenExpired
          else
            let accessToken :=
              generateAccessToken now (td_user_id tokenData)
                (td_email tokenData) (td_role tokenData)
                (td_tenant_id tokenData) in
            ret (mkRefreshResult accessToken
                   (mkRefreshView (td_user_id tokenData) (td_email tokenData)
                      (td_full_name tokenData) (td_role tokenData)
                      (td_tenant_id tokenData)))
      end
  end.

Definition logout (refreshToken : option string) : M unit :=
  match refreshToken with
  | None | Some EmptyString => ret tt
  | Some refreshToken => authRepository.revokeRefreshToken (hashToken D refreshToken)
  end.

Definition logoutAll (userId : Z) : M unit := authRepository.revokeAllUserTokens userId.

Definition getProfile (userId : Z) : M user_row :=
  let* user := authRepository.findById userId in
  match user with
  | None => throw NotFound
  | Some user => ret user
  end.

Definition updateProfile (userId : Z) (data : gmap string jsval)
  : M (option user_row) :=
  authRepository.update D userId data.

Definition changePassword (salt : string) (userId : Z)
  (currentPassword : jsval) (newPassword : string) : M string :=
  let* byId := authRepository.findById userId in
  (* [(await findById(userId)).email] *)
  let* email := lift (match byId with
                      | None => Throw TypeError
                      | Some row => Ok (u_email row)
                      end) in
  let* user := authRepository.findByEmail D (JStr email) in
  match user with
  | None => throw NotFound
  | Some user =>
      run (if truthy (of_column (u_password_hash user))
           then
             let* isValid :=
               lift (argon2_verify D (u_password_hash user) currentPassword) in
             if negb isValid then throw WrongCurrentPassword else ret tt
           else ret tt) then
      let newHash := argon2_hash D salt newPassword in
      run authRepository.updatePassword userId newHash then
      ret "Password changed successfully."
  end.

End WithDeps.
End authService.

(** ** auth.controller.js and auth.routes.js *)

Module authController.
Section WithDeps.
Context (D : Deps).

(** The body of [POST /register]; [role] is kept as an arbitrary value so
    that the handler's own filter decides what reaches the service. *)
Record register_body := mkRegisterBody {
  b_email : string;
  b_password : string;
  b_fullName : string;
  b_phone : jsval;
  b_role : jsval
}.

Definition allowedRoles : list string := ["customer"; "manager"].

(** [allowedRoles.includes(role) ? role : 'customer'] *)
Definition userRole (role : jsval) : string :=
  match role with
  | JStr r => if bool_decide (r ∈ allowedRoles) then r else "customer"
  | _ => "customer"
  end.

Definition register (salt : string) (body : register_body)
  : M authService.register_view :=
  let* user := authService.register D salt (b_email body) (b_password body)
                 (Some (b_fullName body)) (b_phone body)
                 (Some (userRole (b_role body))) in
  run lift (createAuditLog D "REGISTER" (authService.rv_id user)) then
  ret user.

(** [const { identifier, password } = req.body] and then
    [authService.login({ identifier, password })], whose parameter list is
    [({ email, password })]. *)
Definition login (now : Z) (rnd : string) (body : gmap string jsval)
  : M authService.login_result :=
  let identifier := prop body "identifier" in
  let password := prop body "password" in
  let args : gmap string jsval :=
    <["identifier" := identifier]> (<["password" := password]> ∅) in
  let* result := authService.login D now rnd (prop args "email")
                                   (prop args "password") in
  run lift (createAuditLog D "LOGIN"
              (authService.v_id (authService.l_user result))) then
  ret result.

(** [const { fullName, phone } = req.body] and then
    [authService.updateProfile(req.user.id, { fullName, phone })]; [userId]
    is [req.user.id], set by the [authenticate] middleware. *)
Definition updateProfile (userId : Z) (body : gmap string jsval)
  : M (option user_row) :=
  let fullName := prop body "fullName" in
  let phone := prop body "phone" in
  authService.updateProfile D userId
    (<["fullName" := fullName]> (<["phone" := phone]> ∅)).

(** The tail of [uploadAvatar], once the upload has produced [avatarUrl]:
    [authService.updateProfile(req.user.id, { avatarUrl })]. *)
Definition uploadAvatar (userId : Z) (avatarUrl : string)
  : M (option user_row) :=
  authService.updateProfile D userId (<["avatarUrl" := JStr avatarUrl]> ∅).

End WithDeps.
End authController.

Module authRoutes.
Section WithDeps.
Context (D : Deps).
(** [validateBody(loginSchema)] from [middleware/validator.js]: it rejects
    the request or hands a body on to the handler. *)
Context (validateBody : gmap string jsval -> outcome (gmap string jsval)).

Definition post_login (now : Z) (rnd : string) (body : gmap string jsval)
  : M authService.login_result :=
  let* body := lift (validateBody body) in
  authController.login D now rnd body.

End WithDeps.
End authRoutes.

(** ** A concrete set of collaborators

    Used to run the handlers on examples: ASCII lower-casing, a tagged
    digest, and an argon2 stand-in that, like the library, rejects a digest
    or a plain text that is not a string. *)

Module Sample.

Definition lower_char (c : ascii) : ascii :=
  let n := nat_of_ascii c in
  if ((65 <=? n) && (n <=? 90))%nat then ascii_of_nat (n + 32) else c.

Fixpoint lower (s : string) : string :=
  match s with
  | EmptyString => EmptyString
  | String c s' => String (lower_char c) (lower s')
  end.

Definition hash (salt plain : string) : string := "$argon2id$" +:+ plain.

Definition verify (digest : option string) (plain : jsval) : outcome bool :=
  match digest, plain with
  | Some d, JStr p => Ok (String.eqb d ("$argon2id$" +:+ p))
  | _, _ => Throw TypeError
  end.

Definition sign (now : Z) (c : access_claims) : string :=
  "jwt." +:+ c_email c +:+ "." +:+ c_role c.

(** A server that reads the texts 'true' and 'false' as booleans for
    [is_verified] (of the other spellings the server reads, none is used
    below) and takes numbers only for [tenant_id]. *)
Definition boolean (v : jsval) : outcome bool :=
  match v with
  | JStr "true" => Ok true
  | JStr "false" => Ok false
  | _ => Throw (DatabaseError "invalid input syntax for type boolean")
  end.

Definition tenant_id (v : jsval) : outcome (option Z) :=
  match v with
  | JNum n => Ok (Some n)
  | _ => Throw (DatabaseError "invalid input syntax for type integer")
  end.

Definition deps (clientId : option string) (ticket : outcome google_payload)
  : Deps :=
  mkDeps lower (fun t => "sha256:" +:+ t) 604800000 hash verify sign clientId
         (fun _ _ => ticket) (fun _ _ => Ok tt) pretty boolean tenant_id.

Definition plain : Deps := deps None (Throw TypeError).

(** A text of [n] letters. *)
Fixpoint letters (n : nat) : string :=
  match n with
  | O => ""
  | S n' => String "a" (letters n')
  end.

Definition empty : db := mkDb [] [] 1 1.

(** A password account with an avatar, and a Google-only account. *)
Definition alice : user_row :=
  mkUser 1 "alice@x.com" (Some "$argon2id$password1") (Some "Alice") None
         "customer" None false None (Some "old.png").

Definition fed : user_row :=
  mkUser 2 "fed@x.com" None (Some "Fed") None "customer" None true
         (Some "g-2") None.

(** Alice holds a live token expiring at 1000 and a revoked one; the
    Google-only user holds a live one. *)
Definition store : db :=
  mkDb [alice; fed]
       [mkToken 1 1 "sha256:tok-a" 1000 false;
        mkToken 2 2 "sha256:tok-f" 5000 false;
        mkToken 3 1 "sha256:tok-r" 5000 true]
       3 4.

(** An assertion for a subject nobody is linked to, with Alice's email and a
    picture. *)
Definition ticket : google_payload :=
  mkPayload "g-1" (Some "Alice@X.com") (Some "Alice A") (Some "new.png").

Definition google : Deps := deps (Some "client-1") (Ok ticket).

(** The store after Bob registered on an empty one. *)
Definition bob : user_row :=
  mkUser 1 "bob@x.com" (Some "$argon2id$password1") (Some "Bob") None
         "customer" None false None None.

Definition after_bob : db := mkDb [bob] [] 2 1.

(** Collaborators whose audit log is down. *)
Definition audit_down : Deps :=
  mkDeps lower (fun t => "sha256:" +:+ t) 604800000 hash verify sign None
         (fun _ _ => Throw TypeError)
         (fun _ _ => Throw (DatabaseError "audit_logs"))
         pretty boolean tenant_id.

(** An assertion for a subject and an email nobody holds, without a name. *)
Definition newcomer : google_payload :=
  mkPayload "g-9" (Some "Carol.Jones@X.com") None (Some "carol.png").

Definition google_newcomer : Deps := deps (Some "client-1") (Ok newcomer).

End Sample.

(** ** Vocabulary of the properties *)

Import authRepository authService.

(** [updatePassword] on one row. *)
Definition with_password (userId : Z) (h : string) (u : user_row) : user_row :=
  if decide (u_id u = userId) then set_password h u else u.

(** Revocation seen through the join. *)
Definition revoke_data (td : token_data) : token_data :=
  mkTokenData (td_id td) (td_user_id td) (td_expires_at td) true (td_email td)
              (td_full_name td) (td_role td) (td_tenant_id td)
              (td_is_verified td).

(** [revokeAllUserTokens] seen through the join. *)
Definition revoked_for (userId : Z) (td : token_data) : token_data :=
  if decide (td_user_id td = userId) then revoke_data td else td.

(** Both sign-in paths resolve a user without looking at the clock or at
    the random token, and only then issue tokens. *)
Definition resolves_then_issues (D : Deps)
  (op : Z -> string -> M login_result) (d : db) : Prop :=
  exists (o : outcome user_row) (d0 : db),
    refresh_tokens d0 = refresh_tokens d
    /\ tokens_seq d0 = tokens_seq d
    /\ forall now rnd,
         op now rnd d = match o with
                        | Ok u => issue_tokens D now rnd u d0
                        | Throw e => (Throw e, d0)
                        end.

(** The avatar after a link: the picture of the assertion when it carries a
    non-empty one, the stored avatar otherwise. *)
Definition avatar_after (picture stored : option string) : option string :=
  match picture with
  | Some (String c p) => Some (String c p)
  | _ => stored
  end.

(** The row [user] once linked to [googleId]: only [google_id],
    [is_verified] and [avatar_url] are written. *)
Definition linked (googleId : string) (picture : option string)
  (user : user_row) : user_row :=
  mkUser (u_id user) (u_email user) (u_password_hash user) (u_full_name user)
         (u_phone user) (u_role user) (u_tenant_id user) true (Some googleId)
         (avatar_after picture (u_avatar_url user)).

(** The object [googleSignIn] passes to [update] in the link case. *)
Definition link_data (googleId : string) (picture : option string)
  (user : user_row) : gmap string jsval :=
  <["googleId" := JStr googleId]>
    (<["avatarUrl" := js_or (opt_js picture) (of_column (u_avatar_url user))]>
       (<["isVerified" := JBool true]> ∅)).

(** [update] with that object, on one row of the table. *)
Definition link_row (i : Z) (g : string) (a : option string) (x : user_row)
  : user_row :=
  if decide (u_id x = i)
  then mkUser (u_id x) (u_email x) (u_password_hash x) (u_full_name x)
              (u_phone x) (u_role x) (u_tenant_id x) true (Some g) a
  else x.

(** C3 as the specification words it: an unrevoked row is expired as soon as
    now has reached its expiry. *)
Definition expired_from_expiry_on (D : Deps) (now : Z) (t : string) (d : db)
  : Prop :=
  forall td,
    findRefreshToken (hashToken D t) d = (Ok (Some td), d) ->
    td_is_revoked td = false ->
    td_expires_at td <= now ->
    fst (refreshAccessToken D now (Some t) d) = Throw TokenExpired.

(** C4 as the specification words it: a link leaves an existing avatar
    alone. *)
Definition link_keeps_existing_avatar (D : Deps) (now : Z)
  (rnd idToken : string) (d : db) : Prop :=
  forall clientId payload email u u',
    google_clientId D = Some clientId ->
    verifyIdToken D idToken clientId = Ok payload ->
    g_email payload = Some email ->
    findByGoogleId D (JStr (g_sub payload)) d = (Ok None, d) ->
    findByEmail D (JStr email) d = (Ok (Some u), d) ->
    fst (findByEmail D (JStr email) (snd (googleSignIn D now rnd idToken d)))
    = Ok (Some u') ->
    u_avatar_url u <> None ->
    u_avatar_url u' = u_avatar_url u.

(** Every stored email is its own lower-case form. *)
Definition emails_normal (D : Deps) (us : list user_row) : Prop :=
  Forall (fun u => toLowerCase D (u_email u) = u_email u) us.

(** A store that meets the constraints of [users], holds lower-case emails
    and whose id sequence is ahead of every id in use. *)
Definition store_ok (D : Deps) (d : db) : Prop :=
  users_ok (users d) = true
  /\ emails_normal D (users d)
  /\ Forall (fun u => u_id u < users_seq d) (users d).

(** A refresh-token row and what an operation left of it: the same row,
    revoked at most. *)
Definition token_kept (t t' : token_row) : Prop :=
  rt_id t' = rt_id t
  /\ rt_user_id t' = rt_user_id t
  /\ rt_token_hash t' = rt_token_hash t
  /\ rt_expires_at t' = rt_expires_at t
  /\ (rt_is_revoked t = true -> rt_is_revoked t' = true).

Definition tokens_evolve (l l' : list token_row) : Prop :=
  forall i t, l !! i = Some t -> exists t', l' !! i = Some t' /\ token_kept t t'.


(** A user row and what the profile handler may leave of it. *)
Definition profile_edit (i : Z) (u u' : user_row) : Prop :=
  u' = u
  \/ (u_id u = i
      /\ exists fullName phone,
           u' = mkUser (u_id u) (u_email u) (u_password_hash u) fullName phone
                       (u_role u) (u_tenant_id u) (u_is_verified u)
                       (u_google_id u) (u_avatar_url u)).

(** A user row and what the avatar handler may leave of it. *)
Definition avatar_edit (i : Z) (avatarUrl : string) (u u' : user_row) : Prop :=
  u' = u
  \/ (u_id u = i
      /\ u' = mkUser (u_id u) (u_email u) (u_password_hash u) (u_full_name u)
                     (u_phone u) (u_role u) (u_tenant_id u) (u_is_verified u)
                     (u_google_id u) (Some avatarUrl)).

(** A non-empty optional string, as [x || fallback] sees it. *)
Definition nonempty_or (x fallback : option string) : option string :=
  match x with
  | Some (String c s) => Some (String c s)
  | _ => fallback
  end.

(** The row [googleSignIn] inserts for an account it creates. *)
Definition google_row (D : Deps) (i : Z) (email : string)
  (payload : google_payload) : user_row :=
  mkUser i (toLowerCase D email) None
         (nonempty_or (g_name payload) (Some (local_part email)))
         None "customer" None
         (negb (String.eqb (g_sub payload) ""))
         (Some (g_sub payload))
         (nonempty_or (g_picture payload) None).

(** The rows [cleanupExpiredTokens] deletes at [now]. *)
Definition terminal (now : Z) (t : token_row) : Prop :=
  rt_expires_at t < now \/ rt_is_revoked t = true.

(** Modelled from the spec: [hashToken] of [utils/helpers.js] is not among
    the sources. Section 4.2 makes the stored hash a deterministic one-way
    digest of the token; a function is deterministic, and of one-way this
    keeps what can be stated of a function: the digest of a token is not the
    token. *)
Definition digest_differs (D : Deps) : Prop :=
  forall t, hashToken D t <> t.

(** The refresh-token rows after [logout] of a token with hash [h]: the
    rows with that hash revoked, the others as they were. *)
Definition revoked_by_hash (h : string) (t t' : token_row) : Prop :=
  (rt_token_hash t = h -> t' = revoke t)
  /\ (rt_token_hash t <> h -> t' = t).

(** * Properties *)

Ltac unfold_m :=
  unfold bind, ret, throw, lift, select_users, all_users in *.

(** ** Lookups *)

Section Lookups.
Context (D : Deps).

Lemma findByEmail_eq (e : string) (d : db) :
  findByEmail D (JStr e) d
  = (Ok (head (filter (fun u => u_email u = toLowerCase D e) (users d))), d).
Proof. reflexivity. Qed.

Lemma findByEmail_not_string (v : jsval) (d : db) :
  (forall s, v <> JStr s) -> findByEmail D v d = (Throw TypeError, d).
Proof. intros H. destruct v; try reflexivity. now destruct (H s). Qed.

Lemma findById_eq (i : Z) (d : db) :
  findById i d
  = (Ok (without_hash <$> head (filter (fun u => u_id u = i) (users d))), d).
Proof.
  unfold findById. unfold_m.
  now destruct (filter (fun u => u_id u = i) (users d)).
Qed.

Lemma findByGoogleId_eq (g : string) (d : db) :
  findByGoogleId D (JStr g) d
  = (Ok (head (filter (fun u => u_google_id u = Some g) (users d))), d).
Proof.
  unfold findByGoogleId. unfold_m. do 3 f_equal.
  apply list_filter_iff. intros u. simpl. split; [tauto | eauto].
Qed.

End Lookups.

(** ** Login *)

Section Login.
Context (D : Deps).

(** The object the login handler passes has no [email] property, so the
    service's lookup calls [toLowerCase] on [undefined]. *)
Lemma controller_login_throws (now : Z) (rnd : string)
  (body : gmap string jsval) (d : db) :
  authController.login D now rnd body d = (Throw TypeError, d).
Proof.
  unfold authController.login, login.
  assert (E : prop (<["identifier" := prop body "identifier"]>
                      (<["password" := prop body "password"]> ∅)) "email"
              = JUndefined).
  { unfold prop. now rewrite !lookup_insert_ne, lookup_empty by discriminate. }
  rewrite E. reflexivity.
Qed.

(** Whatever [validateBody] lets through, [POST /login] does not succeed. *)
Lemma post_login_never_succeeds
  (validateBody : gmap string jsval -> outcome (gmap string jsval))
  (now : Z) (rnd : string) (body : gmap string jsval) (d : db) :
  exists e, authRoutes.post_login D validateBody now rnd body d = (Throw e, d).
Proof.
  unfold authRoutes.post_login. unfold_m.
  destruct (validateBody body) as [b | e].
  - exists TypeError. apply controller_login_throws.
  - now exists e.
Qed.

(** Called with the email it expects, the service does log a freshly
    registered user in, provided the hasher verifies its own digests. *)
Lemma service_login_after_register (salt rnd : string) (now : Z)
  (email password : string) (fullName : option string) (phone : jsval)
  (role : option string) (d d1 : db) (v : register_view) :
  (forall s p, argon2_verify D (Some (argon2_hash D s p)) (JStr p) = Ok true) ->
  register D salt email password fullName phone role d = (Ok v, d1) ->
  exists res d2,
    login D now rnd (JStr email) (JStr password) d1 = (Ok res, d2)
    /\ v_email (l_user res) = rv_email v
    /\ v_id (l_user res) = rv_id v
    /\ l_refreshToken res = rnd.
Proof.
  intros Hv. unfold register, login.
  unfold bind at 1. rewrite findByEmail_eq.
  destruct (head _) eqn:Hh; [discriminate |].
  apply head_None in Hh.
  unfold create, write_users, next_user_id. unfold_m. simpl.
  destruct (users_ok _) eqn:Hok; [| discriminate].
  intros [= <- <-]. simpl.
  rewrite filter_app, Hh. simpl.
  rewrite filter_cons_True by reflexivity. simpl.
  rewrite Hv. simpl. eauto 10.
Qed.

Lemma login_unknown_email (now : Z) (rnd e : string) (password : jsval)
  (d : db) :
  findByEmail D (JStr e) d = (Ok None, d) ->
  login D now rnd (JStr e) password d = (Throw InvalidCredentials, d).
Proof. intros H. unfold login, bind. now rewrite H. Qed.

Lemma login_wrong_password (now : Z) (rnd e : string) (password : jsval)
  (d : db) (u : user_row) :
  findByEmail D (JStr e) d = (Ok (Some u), d) ->
  argon2_verify D (u_password_hash u) password = Ok false ->
  login D now rnd (JStr e) password d = (Throw InvalidCredentials, d).
Proof. intros H Hv. unfold login, bind, lift. now rewrite H, Hv. Qed.

End Login.

(** ** Constraints under column-preserving updates *)

Lemma omap_fmap_ext {A B C} (g : B -> option C) (f : A -> B)
  (h : A -> option C) (l : list A) :
  (forall x, g (f x) = h x) -> omap g (f <$> l) = omap h l.
Proof.
  intros E. induction l as [| x l IH]; [reflexivity |].
  csimpl. rewrite E, IH. reflexivity.
Qed.

Lemma users_ok_keys (f : user_row -> user_row) (us : list user_row) :
  (forall u, u_id (f u) = u_id u) ->
  (forall u, u_email (f u) = u_email u) ->
  (forall u, u_google_id (f u) = u_google_id u) ->
  (forall u, u_phone (f u) = u_phone u) ->
  users_ok (f <$> us) = users_ok us.
Proof.
  intros Hi He Hg Hp. unfold users_ok.
  rewrite <- !list_fmap_compose.
  rewrite (list_fmap_ext (u_id ∘ f) u_id us) by (intros; simpl; auto).
  rewrite (list_fmap_ext (u_email ∘ f) u_email us) by (intros; simpl; auto).
  rewrite (omap_fmap_ext u_google_id f u_google_id) by assumption.
  rewrite (omap_fmap_ext u_phone f u_phone) by assumption.
  reflexivity.
Qed.

(** ** Change of password *)

Section ChangePassword.
Context (D : Deps).

Lemma users_ok_with_password (userId : Z) (h : string) (us : list user_row) :
  users_ok (with_password userId h <$> us) = users_ok us.
Proof.
  apply users_ok_keys; intros u; unfold with_password;
    destruct (decide (u_id u = userId)); reflexivity.
Qed.

(** An account without a password hash: the current password is not looked
    at and the new one is stored. *)
Lemma changePassword_sets_first_password (salt : string) (userId : Z)
  (currentPassword : jsval) (newPassword : string) (d : db)
  (row user : user_row) :
  users_ok (users d) = true ->
  findById userId d = (Ok (Some row), d) ->
  findByEmail D (JStr (u_email row)) d = (Ok (Some user), d) ->
  u_password_hash user = None ->
  changePassword D salt userId currentPassword newPassword d
  = (Ok "Password changed successfully.",
     mkDb (with_password userId (argon2_hash D salt newPassword) <$> users d)
          (refresh_tokens d) (users_seq d) (tokens_seq d)).
Proof.
  intros Hok Hid Hem Hnone. unfold changePassword.
  unfold bind at 1. rewrite Hid. unfold bind at 1. unfold lift at 1.
  unfold bind at 1. rewrite Hem. rewrite Hnone. simpl.
  unfold updatePassword, write_users. unfold_m.
  fold (with_password userId (argon2_hash D salt newPassword)).
  rewrite users_ok_with_password, Hok. reflexivity.
Qed.

(** An account with a password hash and a current password that does not
    verify. *)
Lemma changePassword_wrong_current (salt : string) (userId : Z)
  (currentPassword : jsval) (newPassword : string) (d : db)
  (row user : user_row) :
  findById userId d = (Ok (Some row), d) ->
  findByEmail D (JStr (u_email row)) d = (Ok (Some user), d) ->
  truthy (of_column (u_password_hash user)) = true ->
  argon2_verify D (u_password_hash user) currentPassword = Ok false ->
  changePassword D salt userId currentPassword newPassword d
  = (Throw WrongCurrentPassword, d).
Proof.
  intros Hid Hem Ht Hv. unfold changePassword.
  unfold bind at 1. rewrite Hid. unfold bind at 1. unfold lift at 1.
  unfold bind at 1. rewrite Hem. rewrite Ht.
  unfold_m. rewrite Hv. reflexivity.
Qed.

End ChangePassword.

(** ** Refresh tokens *)

Section RefreshTokens.
Context (D : Deps).

Lemma refresh_reads_only (now : Z) (tok : option string) (d : db) :
  snd (refreshAccessToken D now tok d) = d.
Proof.
  unfold refreshAccessToken, findRefreshToken.
  destruct tok as [[| c t] |]; try reflexivity.
  unfold_m.
  destruct (head _) as [td |]; [| reflexivity].
  destruct (td_is_revoked td); [reflexivity |].
  destruct (td_expires_at td <? now); reflexivity.
Qed.

(** The outcome of a refresh, read off the row the lookup returns. *)
Lemma refresh_cases (now : Z) (c : ascii) (t : string) (d : db) :
  let tok := String c t in
  refreshAccessToken D now (Some tok) d
  = match fst (findRefreshToken (hashToken D tok) d) with
    | Ok None => (Throw InvalidToken, d)
    | Ok (Some td) =>
        if td_is_revoked td then (Throw TokenRevoked, d)
        else if td_expires_at td <? now then (Throw TokenExpired, d)
        else (Ok (mkRefreshResult
                    (generateAccessToken D now (td_user_id td) (td_email td)
                                         (td_role td) (td_tenant_id td))
                    (mkRefreshView (td_user_id td) (td_email td)
                                   (td_full_name td) (td_role td)
                                   (td_tenant_id td))), d)
    | Throw e => (Throw e, d)
    end.
Proof.
  simpl. unfold refreshAccessToken, findRefreshToken. unfold_m. simpl.
  destruct (head _) as [td |]; [| reflexivity].
  destruct (td_is_revoked td); [reflexivity |].
  destruct (td_expires_at td <? now); reflexivity.
Qed.

Lemma nonempty_string (t : string) : t <> "" -> exists c t', t = String c t'.
Proof. destruct t; [congruence | eauto]. Qed.

Lemma findRefreshToken_reads_only (h : string) (d : db) :
  snd (findRefreshToken h d) = d.
Proof. reflexivity. Qed.

Lemma join_users_revoke_all (userId : Z) (us : list user_row) (t : token_row) :
  join_users us (if decide (rt_user_id t = userId) then revoke t else t)
  = revoked_for userId <$> join_users us t.
Proof.
  unfold join_users, revoked_for. rewrite <- list_fmap_compose.
  destruct (decide (rt_user_id t = userId)) as [E | E]; simpl.
  - apply list_fmap_ext. intros i u _. simpl.
    now destruct (decide (rt_user_id t = userId)).
  - apply list_fmap_ext. intros i u _. simpl.
    now destruct (decide (rt_user_id t = userId)).
Qed.

Lemma rows_after_revoke_all (userId : Z) (h : string) (us : list user_row)
  (ts : list token_row) :
  filter (fun t => rt_token_hash t = h)
         ((fun t => if decide (rt_user_id t = userId) then revoke t else t)
            <$> ts)
    ≫= join_users us
  = revoked_for userId
      <$> (filter (fun t => rt_token_hash t = h) ts ≫= join_users us).
Proof.
  induction ts as [| t ts IH]; [reflexivity |].
  rewrite fmap_cons.
  assert (Hh : rt_token_hash (if decide (rt_user_id t = userId)
                              then revoke t else t) = rt_token_hash t)
    by now destruct (decide (rt_user_id t = userId)).
  destruct (decide (rt_token_hash t = h)) as [E | E].
  - rewrite !filter_cons_True by congruence.
    rewrite !bind_cons, fmap_app, IH, join_users_revoke_all. reflexivity.
  - rewrite !filter_cons_False by congruence. exact IH.
Qed.

Lemma findRefreshToken_after_logoutAll (userId : Z) (h : string) (d : db) :
  fst (findRefreshToken h (snd (logoutAll userId d)))
  = match fst (findRefreshToken h d) with
    | Ok o => Ok (revoked_for userId <$> o)
    | Throw e => Throw e
    end.
Proof.
  unfold findRefreshToken, logoutAll, revokeAllUserTokens, update_tokens.
  simpl. rewrite rows_after_revoke_all.
  now destruct (_ ≫= _).
Qed.

Lemma join_users_elem (us : list user_row) (t : token_row) (td : token_data) :
  td ∈ join_users us t ->
  exists u, u ∈ us /\ u_id u = rt_user_id t
            /\ td = mkTokenData (rt_id t) (rt_user_id t) (rt_expires_at t)
                                (rt_is_revoked t) (u_email u) (u_full_name u)
                                (u_role u) (u_tenant_id u) (u_is_verified u).
Proof.
  unfold join_users. intros H. apply list_elem_of_fmap in H as (u & -> & Hu).
  apply list_elem_of_filter in Hu as [Hid Hu]. eauto.
Qed.

Lemma rows_elem (h : string) (us : list user_row) (ts : list token_row)
  (td : token_data) :
  td ∈ filter (fun t => rt_token_hash t = h) ts ≫= join_users us ->
  exists t, t ∈ ts /\ rt_token_hash t = h /\ td ∈ join_users us t.
Proof.
  intros H. apply list_elem_of_bind in H as (t & Htd & Ht).
  apply list_elem_of_filter in Ht as [Hh Ht]. eauto.
Qed.

Lemma rows_intro (h : string) (us : list user_row) (ts : list token_row)
  (t : token_row) (u : user_row) :
  t ∈ ts -> rt_token_hash t = h -> u ∈ us -> u_id u = rt_user_id t ->
  filter (fun t => rt_token_hash t = h) ts ≫= join_users us <> [].
Proof.
  intros Ht Hh Hu Hid E.
  assert (Hin : mkTokenData (rt_id t) (rt_user_id t) (rt_expires_at t)
                  (rt_is_revoked t) (u_email u) (u_full_name u) (u_role u)
                  (u_tenant_id u) (u_is_verified u)
                ∈ filter (fun t => rt_token_hash t = h) ts ≫= join_users us).
  { apply list_elem_of_bind. exists t. split.
    - unfold join_users. apply list_elem_of_fmap. exists u. split; [reflexivity |].
      now apply list_elem_of_filter.
    - now apply list_elem_of_filter. }
  rewrite E in Hin. now apply elem_of_nil in Hin.
Qed.

End RefreshTokens.

Section RefreshClaims.
Context (D : Deps).

(** C3, as amended: [refreshAccessToken] fails with Unauthorized on a
    missing (absent or empty) token, with InvalidToken when no stored row
    matches its hash, with TokenRevoked when the matching row is revoked
    (whatever its expiry), and with TokenExpired when the row is unrevoked
    and its expiry is strictly before now; the checks run in that order, and
    an unrevoked row whose expiry is now or later, the instant now = expiry
    included, is accepted. *)
Theorem refresh_checks_in_order (now : Z) (tok : option string) (d : db) :
  (tok = None \/ tok = Some "" ->
   refreshAccessToken D now tok d = (Throw Unauthorized, d))
  /\ forall t, tok = Some t -> t <> "" ->
       (findRefreshToken (hashToken D t) d = (Ok None, d) ->
        refreshAccessToken D now tok d = (Throw InvalidToken, d))
       /\ forall td,
            findRefreshToken (hashToken D t) d = (Ok (Some td), d) ->
            (td_is_revoked td = true ->
             refreshAccessToken D now tok d = (Throw TokenRevoked, d))
            /\ (td_is_revoked td = false -> td_expires_at td < now ->
                refreshAccessToken D now tok d = (Throw TokenExpired, d))
            /\ (td_is_revoked td = false -> now <= td_expires_at td ->
                exists r, refreshAccessToken D now tok d = (Ok r, d)).
Proof.
  split.
  - intros [-> | ->]; reflexivity.
  - intros t -> Ht. destruct (nonempty_string t Ht) as (c & t' & ->).
    rewrite refresh_cases. split.
    + intros ->. reflexivity.
    + intros td ->. simpl. repeat split.
      * intros ->. reflexivity.
      * intros -> Hlt. apply Z.ltb_lt in Hlt. now rewrite Hlt.
      * intros -> Hle. apply Z.ltb_ge in Hle. rewrite Hle. eauto.
Qed.

(** C6: a refresh writes nothing to the store, whatever its outcome, and a
    token that was accepted is accepted again at any later instant up to and
    including its expiry, for the same user, as long as the store is the one
    the refresh left. *)
Theorem refresh_does_not_rotate (now : Z) (tok : option string) (d : db) :
  snd (refreshAccessToken D now tok d) = d
  /\ forall r d',
       refreshAccessToken D now tok d = (Ok r, d') ->
       d' = d
       /\ exists t td,
            tok = Some t
            /\ findRefreshToken (hashToken D t) d' = (Ok (Some td), d')
            /\ td_is_revoked td = false
            /\ forall now', now' <= td_expires_at td ->
                 exists r', refreshAccessToken D now' tok d' = (Ok r', d')
                            /\ r_user r' = r_user r.
Proof.
  split; [apply (refresh_reads_only D) |].
  intros r d' H.
  assert (d' = d) as ->.
  { pose proof (refresh_reads_only D now tok d) as E. now rewrite H in E. }
  split; [reflexivity |].
  destruct tok as [[| c t] |]; try discriminate.
  exists (String c t). rewrite refresh_cases in H.
  destruct (findRefreshToken _ d) as [[[td |] | e] d0] eqn:Hf;
    simpl in H; try discriminate.
  pose proof (findRefreshToken_reads_only (hashToken D (String c t)) d) as Ed.
  rewrite Hf in Ed. simpl in Ed. subst d0.
  destruct (td_is_revoked td) eqn:Hr; [discriminate |].
  destruct (td_expires_at td <? now) eqn:Hx; [discriminate |].
  injection H as <-.
  exists td. split; [reflexivity |]. split; [reflexivity |].
  split; [exact Hr |].
  intros now' Hle. rewrite refresh_cases, Hf. simpl. rewrite Hr.
  apply Z.ltb_ge in Hle. rewrite Hle. eauto.
Qed.

(** C7: after [logoutAll userId] every refresh-token row owned by the user
    is revoked, expired or not, so a refresh with a token of theirs fails
    with TokenRevoked; the rows of other users and the users table are as
    before, and a refresh with a token of another user gives what it gave
    before. *)
Theorem logoutAll_revokes_only_the_user (userId : Z) (d : db) :
  let d' := snd (logoutAll userId d) in
  fst (logoutAll userId d) = Ok tt
  /\ Forall (fun t => rt_user_id t = userId -> rt_is_revoked t = true)
            (refresh_tokens d')
  /\ filter (fun t => rt_user_id t <> userId) (refresh_tokens d')
     = filter (fun t => rt_user_id t <> userId) (refresh_tokens d)
  /\ users d' = users d
  /\ forall now t td,
       t <> "" ->
       findRefreshToken (hashToken D t) d = (Ok (Some td), d) ->
       (td_user_id td = userId ->
        refreshAccessToken D now (Some t) d' = (Throw TokenRevoked, d'))
       /\ (td_user_id td <> userId ->
           fst (refreshAccessToken D now (Some t) d')
           = fst (refreshAccessToken D now (Some t) d)).
Proof.
  cbv zeta. split; [reflexivity |]. split; [| split; [| split]].
  - unfold logoutAll, revokeAllUserTokens, update_tokens. simpl.
    apply Forall_fmap, Forall_forall. intros t _. simpl.
    destruct (decide (rt_user_id t = userId)); simpl; congruence.
  - unfold logoutAll, revokeAllUserTokens, update_tokens. simpl.
    induction (refresh_tokens d) as [| t ts IH]; [reflexivity |].
    rewrite fmap_cons.
    destruct (decide (rt_user_id t = userId)) as [E | E].
    + rewrite !filter_cons_False by (simpl; tauto). exact IH.
    + rewrite !filter_cons_True by assumption. now rewrite IH.
  - reflexivity.
  - intros now t td Ht Hf.
    destruct (nonempty_string t Ht) as (c & t' & ->).
    rewrite !refresh_cases, findRefreshToken_after_logoutAll, Hf. simpl.
    unfold revoked_for. split; intros E.
    + rewrite decide_True by assumption. reflexivity.
    + rewrite decide_False by assumption.
      destruct (td_is_revoked td); [reflexivity |].
      destruct (td_expires_at td <? now); reflexivity.
Qed.

End RefreshClaims.

(** ** What reaches the refresh-token table *)

Section TokenStorage.
Context (D : Deps).

Lemma update_keeps_tokens (i : Z) (data : gmap string jsval) (d : db) :
  refresh_tokens (snd (update D i data d)) = refresh_tokens d
  /\ tokens_seq (snd (update D i data d)) = tokens_seq d.
Proof.
  unfold update, write_users. destruct (no_fields data); [now split |].
  unfold_m. destruct (bind_update D data); [| now split].
  destruct (users_ok _); now split.
Qed.

Lemma create_keeps_tokens (n : new_user) (d : db) :
  refresh_tokens (snd (create D n d)) = refresh_tokens d
  /\ tokens_seq (snd (create D n d)) = tokens_seq d.
Proof.
  unfold create, write_users, next_user_id. unfold_m.
  destruct (fit_column 255 (n_googleId n)); [| now split].
  destruct (fit_column 500 (n_avatarUrl n)); [| now split]. simpl.
  destruct (users_ok _); now split.
Qed.

Lemma issue_tokens_eq (now : Z) (rnd : string) (user : user_row) (d : db) :
  issue_tokens D now rnd user d
  = (Ok (mkLoginResult (view_of user)
           (generateAccessToken D now (u_id user) (u_email user) (u_role user)
                                (u_tenant_id user))
           rnd (now + refreshLifetime D)),
     mkDb (users d)
          (refresh_tokens d
           ++ [mkToken (tokens_seq d) (u_id user) (hashToken D rnd)
                       (now + refreshLifetime D) false])
          (users_seq d) (tokens_seq d + 1)).
Proof. reflexivity. Qed.

Ltac resolved_by o d0 :=
  exists o, d0; split; [reflexivity |]; split; [reflexivity |];
  intros; reflexivity.

Lemma login_resolves_then_issues (e p : jsval) (d : db) :
  resolves_then_issues D (fun now rnd => login D now rnd e p) d.
Proof.
  unfold resolves_then_issues, login, findByEmail. unfold_m.
  destruct (call_toLowerCase D e) as [s | ex];
    [| resolved_by (@Throw user_row ex) d].
  destruct (head _) as [u |];
    [| resolved_by (@Throw user_row InvalidCredentials) d].
  destruct (argon2_verify D (u_password_hash u) p) as [[|] | ex].
  - resolved_by (Ok u) d.
  - resolved_by (@Throw user_row InvalidCredentials) d.
  - resolved_by (@Throw user_row ex) d.
Qed.

Lemma googleSignIn_resolves_then_issues (idToken : string) (d : db) :
  resolves_then_issues D (fun now rnd => googleSignIn D now rnd idToken) d.
Proof.
  unfold resolves_then_issues, googleSignIn.
  destruct (google_clientId D) as [[| c cs] |];
    try resolved_by
      (@Throw user_row (BadRequestError "Google Sign-In is not configured.")) d.
  destruct (verifyIdToken D idToken (String c cs)) as [payload | ex];
    [| resolved_by
         (@Throw user_row (UnauthorizedError "Invalid Google token.")) d].
  destruct (g_email payload) as [[| c' email] |];
    try resolved_by
      (@Throw user_row
         (BadRequestError "Google account does not have an email address.")) d.
  unfold bind at 1. rewrite findByGoogleId_eq.
  destruct (head _) as [u |].
  { unfold_m. resolved_by (Ok u) d. }
  unfold bind at 1. unfold bind at 1. rewrite findByEmail_eq.
  match goal with
  | |- context [let (_, _) := ?m d in _] =>
      assert (Hk : refresh_tokens (snd (m d)) = refresh_tokens d
                   /\ tokens_seq (snd (m d)) = tokens_seq d);
      [| destruct (m d) as [[[u |] | ex] d0]; simpl in Hk; destruct Hk ]
  end.
  - destruct (head _) as [u |]; [apply update_keeps_tokens |].
    unfold bind. pose proof create_keeps_tokens as Hc.
    match goal with
    | |- context [create D ?n d] =>
        specialize (Hc n d); destruct (create D n d) as [[u | ex] d0]
    end; exact Hc.
  - exists (Ok u), d0. split; [assumption |]. split; [assumption |].
    intros; reflexivity.
  - exists (Throw TypeError), d0. split; [assumption |]. split; [assumption |].
    intros; reflexivity.
  - exists (Throw ex), d0. split; [assumption |]. split; [assumption |].
    intros; reflexivity.
Qed.

End TokenStorage.

Section StorageClaims.
Context (D : Deps).

Lemma issued_token_is_hashed (op : Z -> string -> M login_result) (d : db) :
  resolves_then_issues D op d ->
  forall now rnd res d',
    op now rnd d = (Ok res, d') ->
    l_refreshToken res = rnd
    /\ refresh_tokens d'
       = (refresh_tokens d
         ++ [mkToken (tokens_seq d) (v_id (l_user res)) (hashToken D rnd)
                     (l_expiresAt res) false])%list.
Proof.
  intros (o & d0 & Ht & Hs & E) now rnd res d'. rewrite E.
  destruct o as [u | ex]; [| discriminate].
  rewrite issue_tokens_eq. intros [= <- <-]. simpl.
  rewrite Ht, Hs. split; reflexivity.
Qed.

Lemma store_sees_only_the_hash (op : Z -> string -> M login_result) (d : db) :
  resolves_then_issues D op d ->
  forall now rnd1 rnd2,
    hashToken D rnd1 = hashToken D rnd2 ->
    snd (op now rnd1 d) = snd (op now rnd2 d).
Proof.
  intros (o & d0 & _ & _ & E) now rnd1 rnd2 H. rewrite !E.
  destruct o as [u | ex]; [| reflexivity].
  rewrite !issue_tokens_eq. simpl. now rewrite H.
Qed.

Lemma sign_in_users_independent (op : Z -> string -> M login_result)
  (d : db) :
  resolves_then_issues D op d ->
  forall now1 rnd1 now2 rnd2,
    users (snd (op now1 rnd1 d)) = users (snd (op now2 rnd2 d)).
Proof.
  intros (o & d0 & _ & _ & E) now1 rnd1 now2 rnd2. rewrite !E.
  destruct o as [u | ex]; [| reflexivity]. now rewrite !issue_tokens_eq.
Qed.

Lemma sign_in_never_stores_plaintext (op : Z -> string -> M login_result)
  (d : db) :
  resolves_then_issues D op d ->
  digest_differs D ->
  forall now rnd,
    (forall row, row ∈ refresh_tokens d -> rt_token_hash row <> rnd) ->
    forall row, row ∈ refresh_tokens (snd (op now rnd d)) ->
                rt_token_hash row <> rnd.
Proof.
  intros (o & d0 & Ht & _ & E) Hd now rnd Hold row. rewrite E.
  destruct o as [u | ex]; [rewrite issue_tokens_eq |]; simpl; rewrite Ht.
  - intros Hin. apply elem_of_app in Hin as [Hin | Hin]; [now apply Hold |].
    apply list_elem_of_singleton in Hin. subst row. simpl. apply Hd.
  - apply Hold.
Qed.

Lemma login_keeps_users (now : Z) (rnd : string) (e p : jsval) (d : db) :
  users (snd (login D now rnd e p d)) = users d.
Proof.
  unfold login, findByEmail. unfold_m.
  destruct (call_toLowerCase D e) as [s | ex]; [| reflexivity].
  destruct (head _) as [u |]; [| reflexivity].
  destruct (argon2_verify D (u_password_hash u) p) as [[|] | ex];
    reflexivity.
Qed.

(** C8: of a refresh token, the store is given its hash and nothing else.
    The row a successful [login] or [googleSignIn] writes holds the hash of
    the token handed back; the users table these operations leave is the
    same whatever token was drawn, and the store they leave depends on the
    token through its hash only; provided the digest of a token is not the
    token, a token that was in no row before is in no row afterwards. A
    lookup is by equality on the hash: [refreshAccessToken] answers
    InvalidToken exactly when no stored row with an existing owner carries
    the hash of the token it was given, [logout] revokes the rows that carry
    that hash and leaves the others, and two tokens with one hash are not
    told apart. *)
Theorem refresh_token_stored_as_hash (now : Z) (d : db) :
  (forall rnd e p res d',
     login D now rnd e p d = (Ok res, d') ->
     l_refreshToken res = rnd
     /\ refresh_tokens d'
        = (refresh_tokens d
          ++ [mkToken (tokens_seq d) (v_id (l_user res)) (hashToken D rnd)
                      (l_expiresAt res) false])%list)
  /\ (forall rnd idToken res d',
        googleSignIn D now rnd idToken d = (Ok res, d') ->
        l_refreshToken res = rnd
        /\ refresh_tokens d'
           = (refresh_tokens d
             ++ [mkToken (tokens_seq d) (v_id (l_user res)) (hashToken D rnd)
                         (l_expiresAt res) false])%list)
  /\ (forall rnd1 rnd2,
        hashToken D rnd1 = hashToken D rnd2 ->
        (forall e p, snd (login D now rnd1 e p d) = snd (login D now rnd2 e p d))
        /\ (forall idToken,
              snd (googleSignIn D now rnd1 idToken d)
              = snd (googleSignIn D now rnd2 idToken d)))
  /\ (forall t1 t2,
        t1 <> "" -> t2 <> "" -> hashToken D t1 = hashToken D t2 ->
        refreshAccessToken D now (Some t1) d
        = refreshAccessToken D now (Some t2) d
        /\ logout D (Some t1) d = logout D (Some t2) d)
  /\ (forall rnd e p, users (snd (login D now rnd e p d)) = users d)
  /\ (forall idToken now1 rnd1 now2 rnd2,
        users (snd (googleSignIn D now1 rnd1 idToken d))
        = users (snd (googleSignIn D now2 rnd2 idToken d)))
  /\ (digest_differs D ->
      forall rnd,
        (forall row, row ∈ refresh_tokens d -> rt_token_hash row <> rnd) ->
        (forall e p row,
           row ∈ refresh_tokens (snd (login D now rnd e p d)) ->
           rt_token_hash row <> rnd)
        /\ (forall idToken row,
              row ∈ refresh_tokens (snd (googleSignIn D now rnd idToken d)) ->
              rt_token_hash row <> rnd))
  /\ (forall t,
        t <> "" ->
        (refreshAccessToken D now (Some t) d = (Throw InvalidToken, d)
         <-> forall row u,
               row ∈ refresh_tokens d -> u ∈ users d ->
               u_id u = rt_user_id row ->
               rt_token_hash row <> hashToken D t))
  /\ (forall t,
        t <> "" ->
        Forall2 (revoked_by_hash (hashToken D t)) (refresh_tokens d)
                (refresh_tokens (snd (logout D (Some t) d)))
        /\ users (snd (logout D (Some t) d)) = users d).
Proof.
  repeat apply conj.
  - intros rnd e p.
    apply (issued_token_is_hashed (fun now rnd => login D now rnd e p) d
             (login_resolves_then_issues D e p d) now rnd).
  - intros rnd idToken.
    apply (issued_token_is_hashed
             (fun now rnd => googleSignIn D now rnd idToken) d
             (googleSignIn_resolves_then_issues D idToken d) now rnd).
  - intros rnd1 rnd2 H. split.
    + intros e p.
      apply (store_sees_only_the_hash (fun now rnd => login D now rnd e p) d
               (login_resolves_then_issues D e p d) now _ _ H).
    + intros idToken.
      apply (store_sees_only_the_hash
               (fun now rnd => googleSignIn D now rnd idToken) d
               (googleSignIn_resolves_then_issues D idToken d) now _ _ H).
  - intros t1 t2 H1 H2 H.
    destruct (nonempty_string t1 H1) as (c1 & s1 & ->).
    destruct (nonempty_string t2 H2) as (c2 & s2 & ->).
    split.
    + rewrite !refresh_cases. simpl. now rewrite H.
    + unfold logout. now rewrite H.
  - intros rnd e p. apply login_keeps_users.
  - intros idToken.
    apply (sign_in_users_independent
             (fun now rnd => googleSignIn D now rnd idToken) d
             (googleSignIn_resolves_then_issues D idToken d)).
  - intros Hd rnd Hold. split.
    + intros e p.
      apply (sign_in_never_stores_plaintext
               (fun now rnd => login D now rnd e p) d
               (login_resolves_then_issues D e p d) Hd now rnd Hold).
    + intros idToken.
      apply (sign_in_never_stores_plaintext
               (fun now rnd => googleSignIn D now rnd idToken) d
               (googleSignIn_resolves_then_issues D idToken d) Hd now rnd Hold).
  - intros t Ht. destruct (nonempty_string t Ht) as (c & s & ->).
    rewrite refresh_cases. cbv zeta. unfold findRefreshToken. simpl.
    destruct (filter _ (refresh_tokens d) ≫= join_users (users d))
      as [| td l] eqn:El; simpl.
    + split; [| reflexivity]. intros _ row u Hrow Hu Hid Hh.
      now apply (rows_intro _ _ _ row u Hrow Hh Hu Hid).
    + split.
      * destruct (td_is_revoked td); [discriminate |].
        destruct (td_expires_at td <? now); discriminate.
      * intros Hno. exfalso.
        assert (Hin : td ∈ filter (fun t => rt_token_hash t
                                            = hashToken D (String c s))
                                  (refresh_tokens d) ≫= join_users (users d))
          by (rewrite El; left).
        apply rows_elem in Hin as (row & Hrow & Hh & Htd).
        apply join_users_elem in Htd as (u & Hu & Hid & _).
        now apply (Hno row u).
  - intros t Ht. destruct (nonempty_string t Ht) as (c & s & ->).
    split; [| reflexivity].
    unfold logout, revokeRefreshToken, update_tokens. simpl.
    apply Forall2_fmap_r, Forall_Forall2_diag, Forall_forall.
    intros row _. unfold revoked_by_hash, compose.
    destruct (decide (rt_token_hash row = hashToken D (String c s)))
      as [E | E]; split; intros E'; try reflexivity; now destruct E.
Qed.

End StorageClaims.

(** ** Registration *)

Section Registration.
Context (D : Deps).

(** What a successful [register] leaves in the users table. *)
Lemma register_success (salt email password : string)
  (fullName : option string) (phone : jsval) (role : option string)
  (d d1 : db) (v : register_view) :
  register D salt email password fullName phone role d = (Ok v, d1) ->
  exists u,
    users d1 = (users d ++ [u])%list
    /\ u_id u = rv_id v
    /\ u_email u = toLowerCase D email
    /\ rv_email v = toLowerCase D email
    /\ u_role u = default "customer" role
    /\ rv_role v = default "customer" role
    /\ u_is_verified u = String.eqb (default "customer" role) "super_admin"
    /\ refresh_tokens d1 = refresh_tokens d.
Proof.
  unfold register. unfold bind at 1. rewrite findByEmail_eq.
  destruct (head _); [discriminate |].
  unfold create, write_users, next_user_id. unfold_m. simpl.
  destruct (users_ok _); [| discriminate].
  intros [= <- <-]. simpl. eexists. split; [reflexivity |]. simpl.
  rewrite orb_false_r. repeat split; reflexivity.
Qed.

(** A failed [register] leaves the tables as they were. *)
Lemma register_failure (salt email password : string)
  (fullName : option string) (phone : jsval) (role : option string)
  (d d1 : db) (e : exn) :
  register D salt email password fullName phone role d = (Throw e, d1) ->
  users d1 = users d /\ refresh_tokens d1 = refresh_tokens d.
Proof.
  unfold register. unfold bind at 1. rewrite findByEmail_eq.
  destruct (head _); [now intros [= <- <-] |].
  unfold create, write_users, next_user_id. unfold_m. simpl.
  destruct (users_ok _); [discriminate |].
  now intros [= <- <-].
Qed.

(** C9: once [register] has succeeded for an email, a second [register]
    whose email has the same lower-case form, whatever its other arguments,
    fails with AccountExists and leaves the store as it was, so no user row
    is created. *)
Theorem register_twice_same_email
  (salt1 salt2 email1 email2 password1 password2 : string)
  (fullName1 fullName2 : option string) (phone1 phone2 : jsval)
  (role1 role2 : option string) (d d1 : db) (v : register_view) :
  register D salt1 email1 password1 fullName1 phone1 role1 d = (Ok v, d1) ->
  toLowerCase D email2 = toLowerCase D email1 ->
  register D salt2 email2 password2 fullName2 phone2 role2 d1
  = (Throw AccountExists, d1).
Proof.
  intros H1 E.
  destruct (register_success _ _ _ _ _ _ _ _ _ H1)
    as (u & Hu & _ & He & _).
  unfold register. unfold bind at 1. rewrite findByEmail_eq, Hu, E.
  rewrite filter_app, (filter_cons_True _ u []) by exact He.
  destruct (filter _ (users d)); reflexivity.
Qed.

Lemma userRole_allowed (role : jsval) :
  authController.userRole role = "customer"
  \/ authController.userRole role = "manager".
Proof.
  destruct role as [| | b | n | r]; try (left; reflexivity).
  unfold authController.userRole, authController.allowedRoles.
  case_bool_decide as H; [| left; reflexivity].
  apply elem_of_cons in H as [-> | H]; [now left |].
  apply elem_of_cons in H as [-> | H]; [now right |].
  now apply elem_of_nil in H.
Qed.

Lemma userRole_replaced (role : jsval) :
  role <> JStr "customer" -> role <> JStr "manager" ->
  authController.userRole role = "customer".
Proof.
  intros Hc Hm. destruct role as [| | b | n | r]; try reflexivity.
  unfold authController.userRole, authController.allowedRoles.
  case_bool_decide as H; [| reflexivity].
  apply elem_of_cons in H as [-> | H]; [congruence |].
  apply elem_of_cons in H as [-> | H]; [congruence |].
  now apply elem_of_nil in H.
Qed.

Lemma controller_register_eq (salt : string)
  (body : authController.register_body) (d : db) :
  authController.register D salt body d
  = match register D salt (authController.b_email body)
            (authController.b_password body)
            (Some (authController.b_fullName body))
            (authController.b_phone body)
            (Some (authController.userRole (authController.b_role body))) d
    with
    | (Ok v, d1) =>
        match createAuditLog D "REGISTER" (rv_id v) with
        | Ok _ => (Ok v, d1)
        | Throw e => (Throw e, d1)
        end
    | (Throw e, d1) => (Throw e, d1)
    end.
Proof.
  unfold authController.register. unfold bind at 1.
  destruct (register D salt _ _ _ _ _ d) as [[v | e] d1]; reflexivity.
Qed.

(** C10: the register handler passes on the requested role when it is
    'customer' or 'manager' and 'customer' otherwise; the row it inserts, if
    any, carries that role and is unverified, so its role is never
    'super_admin'; and a successful call has inserted exactly that row. *)
Theorem register_role_is_unprivileged (salt : string)
  (body : authController.register_body) (d : db) :
  let role := authController.userRole (authController.b_role body) in
  let d' := snd (authController.register D salt body d) in
  (role = "customer" \/ role = "manager")
  /\ (authController.b_role body <> JStr "customer" ->
      authController.b_role body <> JStr "manager" -> role = "customer")
  /\ (users d' = users d
      \/ exists u, users d' = (users d ++ [u])%list
                   /\ u_role u = role /\ u_role u <> "super_admin"
                   /\ u_is_verified u = false)
  /\ forall v, fst (authController.register D salt body d) = Ok v ->
       rv_role v = role
       /\ exists u, users d' = (users d ++ [u])%list
                    /\ u_id u = rv_id v /\ u_role u = role.
Proof.
  cbv zeta.
  pose proof (userRole_allowed (authController.b_role body)) as Hr.
  assert (Hs : authController.userRole (authController.b_role body)
               <> "super_admin") by (destruct Hr as [-> | ->]; discriminate).
  split; [exact Hr |]. split; [apply userRole_replaced |].
  rewrite controller_register_eq.
  destruct (register D salt _ _ _ _ _ d) as [[v | e] d1] eqn:Hreg.
  - destruct (register_success _ _ _ _ _ _ _ _ _ Hreg)
      as (u & Hu & Hi & _ & _ & Hur & Hvr & Hv & _).
    simpl in Hur, Hvr, Hv.
    assert (Hd : snd (match createAuditLog D "REGISTER" (rv_id v) with
                      | Ok _ => (Ok v, d1)
                      | Throw e => (Throw e, d1)
                      end) = d1)
      by now destruct (createAuditLog D "REGISTER" (rv_id v)).
    rewrite Hd. split.
    + right. exists u. repeat split; try assumption; [congruence |].
      rewrite Hv. destruct Hr as [-> | ->]; reflexivity.
    + intros v'.
      destruct (createAuditLog D "REGISTER" (rv_id v)); [| discriminate].
      simpl. intros [= <-]. split; [assumption |]. exists u. auto.
  - destruct (register_failure _ _ _ _ _ _ _ _ _ Hreg) as [Hu _].
    simpl. split; [now left | discriminate].
Qed.

End Registration.

(** ** Linking a Google identity to an existing account *)

Section Linking.
Context (D : Deps).

Lemma avatar_after_eq (picture stored : option string) :
  to_column D (js_or (opt_js picture) (of_column stored))
  = avatar_after picture stored.
Proof.
  destruct picture as [[| c p] |]; simpl; try reflexivity;
    now destruct stored.
Qed.

Lemma js_or_avatar_defined (picture stored : option string) :
  js_or (opt_js picture) (of_column stored) <> JUndefined.
Proof.
  destruct picture as [[| c p] |], stored; simpl; discriminate.
Qed.

Lemma link_data_props (g : string) (picture : option string) (u : user_row) :
  prop (link_data g picture u) "fullName" = JUndefined
  /\ prop (link_data g picture u) "phone" = JUndefined
  /\ prop (link_data g picture u) "isVerified" = JBool true
  /\ prop (link_data g picture u) "tenantId" = JUndefined
  /\ prop (link_data g picture u) "googleId" = JStr g
  /\ prop (link_data g picture u) "avatarUrl"
     = js_or (opt_js picture) (of_column (u_avatar_url u)).
Proof.
  unfold prop, link_data. repeat split; reflexivity.
Qed.

Lemma no_fields_link_data (g : string) (picture : option string)
  (u : user_row) :
  no_fields (link_data g picture u) = false.
Proof.
  unfold no_fields. apply bool_decide_eq_false. intros H.
  destruct (link_data_props g picture u) as (_ & _ & _ & _ & Hg & _).
  rewrite !Forall_cons in H. destruct H as (_ & _ & _ & _ & H & _).
  congruence.
Qed.

(** A value no longer than the column is stored as it is. *)
Lemma take_chars_short (n : nat) (s : string) :
  (String.length s <= n)%nat -> take_chars n s = s.
Proof.
  revert n. induction s as [| c s IH]; intros [| n] H; simpl in *;
    try reflexivity; try lia.
  f_equal. apply IH. lia.
Qed.

Lemma drop_chars_short (n : nat) (s : string) :
  (String.length s <= n)%nat -> drop_chars n s = EmptyString.
Proof.
  revert n. induction s as [| c s IH]; intros [| n] H; simpl in *;
    try reflexivity; try lia.
  apply IH. lia.
Qed.

Lemma fit_varchar_short (n : nat) (s : string) :
  (String.length s <= n)%nat -> fit_varchar n s = Ok s.
Proof.
  intros H. unfold fit_varchar.
  now rewrite drop_chars_short, take_chars_short.
Qed.

Lemma fit_column_short (n : nat) (c : option string) :
  (forall s, c = Some s -> (String.length s <= n)%nat) ->
  fit_column n c = Ok c.
Proof.
  intros H. destruct c as [s |]; [| reflexivity]. simpl.
  now rewrite fit_varchar_short by now apply H.
Qed.

(** The three cases of a bounded column, at a width of three. *)
Example fit_varchar_cases :
  fit_varchar 3 "abc" = Ok "abc"
  /\ fit_varchar 3 "abc  " = Ok "abc"
  /\ fit_varchar 3 "abcd"
     = Throw (DatabaseError "value too long for type character varying").
Proof. repeat split. Qed.

(** A value the column accepts is stored as its first characters. *)
Lemma fit_varchar_Ok (n : nat) (s s' : string) :
  fit_varchar n s = Ok s' -> s' = take_chars n s.
Proof. unfold fit_varchar. destruct (all_spaces _); now intros [= <-]. Qed.

(** The [SET] clause of the link, for values that fit their columns. *)
Lemma bind_update_link_data (g : string) (picture : option string)
  (u : user_row) :
  (String.length g <= 255)%nat ->
  (forall a, avatar_after picture (u_avatar_url u) = Some a ->
             (String.length a <= 500)%nat) ->
  bind_update D (link_data g picture u)
  = Ok (mkBound None None (Some true) None (Some (Some g))
                (Some (avatar_after picture (u_avatar_url u)))).
Proof.
  intros Hg Ha. unfold bind_update.
  destruct (link_data_props g picture u) as (-> & -> & -> & -> & -> & ->).
  unfold bind_field.
  rewrite (decide_False (P := js_or _ _ = JUndefined))
    by apply js_or_avatar_defined.
  rewrite avatar_after_eq. simpl.
  rewrite fit_varchar_short by exact Hg. simpl.
  rewrite fit_column_short by exact Ha. reflexivity.
Qed.

End Linking.

Section LinkingTable.
Context (D : Deps).

Lemma filter_none {A} (P : A -> Prop) `{!forall x, Decision (P x)}
  (l : list A) :
  (forall x, x ∈ l -> ~ P x) -> filter P l = [].
Proof.
  induction l as [| y l IH]; intros Hn; [reflexivity |].
  rewrite filter_cons_False by (apply Hn; now left).
  apply IH. intros x Hx. apply Hn. now right.
Qed.

Lemma filter_key_unique {A K} `{EqDecision K} (f : A -> K) (l : list A)
  (x : A) :
  NoDup (f <$> l) -> x ∈ l -> filter (fun y => f y = f x) l = [x].
Proof.
  induction l as [| y l IH]; intros Hnd Hin; [now apply elem_of_nil in Hin |].
  rewrite fmap_cons in Hnd. apply NoDup_cons in Hnd as [Hy Hnd].
  apply elem_of_cons in Hin as [-> | Hin].
  - rewrite filter_cons_True by reflexivity. f_equal.
    apply filter_none. intros z Hz E.
    apply Hy. rewrite <- E. now apply list_elem_of_fmap_2.
  - rewrite filter_cons_False; [now apply IH |].
    intros E. apply Hy. rewrite E. now apply list_elem_of_fmap_2.
Qed.

Lemma filter_fmap_key {A K} `{EqDecision K} (f : A -> K) (g : A -> A)
  (k : K) (l : list A) :
  (forall x, f (g x) = f x) ->
  filter (fun y => f y = k) (g <$> l) = g <$> filter (fun y => f y = k) l.
Proof.
  intros E. induction l as [| y l IH]; [reflexivity |].
  rewrite fmap_cons. destruct (decide (f y = k)) as [H | H].
  - rewrite !filter_cons_True by (rewrite ?E; exact H).
    now rewrite fmap_cons, IH.
  - rewrite !filter_cons_False by (rewrite ?E; exact H). exact IH.
Qed.

Lemma link_row_other (i : Z) (g : string) (a : option string)
  (us : list user_row) :
  i ∉ u_id <$> us -> link_row i g a <$> us = us.
Proof.
  intros H. rewrite <- (list_fmap_id us) at 2.
  apply list_fmap_ext. intros n x Hx. unfold link_row.
  rewrite decide_False; [reflexivity |].
  intros <-. apply H, list_elem_of_fmap_2.
  now apply list_elem_of_lookup_2 in Hx.
Qed.

Lemma NoDup_google_after_link (i : Z) (g : string) (a : option string)
  (us : list user_row) :
  (forall x, x ∈ us -> u_google_id x <> Some g) ->
  NoDup (u_id <$> us) ->
  NoDup (omap u_google_id us) ->
  NoDup (omap u_google_id (link_row i g a <$> us)).
Proof.
  induction us as [| x us IH]; intros Hg Hid Hgo; [constructor |].
  rewrite fmap_cons in Hid. apply NoDup_cons in Hid as [Hx Hid].
  assert (Hgo' : NoDup (omap u_google_id us)).
  { csimpl in Hgo. destruct (u_google_id x); [| assumption].
    now apply NoDup_cons in Hgo as [_ ?]. }
  assert (Hg' : forall y, y ∈ us -> u_google_id y <> Some g)
    by (intros y Hy; apply Hg; now right).
  rewrite fmap_cons. unfold link_row at 1.
  destruct (decide (u_id x = i)) as [E | E].
  - subst i. rewrite link_row_other by assumption. csimpl.
    apply NoDup_cons. split; [| assumption].
    intros Hin. apply list_elem_of_omap in Hin as (y & Hy & Hyg).
    now apply (Hg' y).
  - csimpl. destruct (u_google_id x) as [gx |] eqn:Egx; [| now apply IH].
    apply NoDup_cons. split; [| now apply IH].
    intros Hin. apply list_elem_of_omap in Hin as (y & Hy & Hyg).
    apply list_elem_of_fmap in Hy as (z & -> & Hz).
    unfold link_row in Hyg. destruct (decide (u_id z = i)).
    + simpl in Hyg. injection Hyg as <-. apply (Hg x); [now left | exact Egx].
    + csimpl in Hgo. rewrite Egx in Hgo. apply NoDup_cons in Hgo as [Hn _].
      apply Hn, list_elem_of_omap. eauto.
Qed.

Lemma users_ok_after_link (i : Z) (g : string) (a : option string)
  (us : list user_row) :
  (forall x, x ∈ us -> u_google_id x <> Some g) ->
  users_ok us = true ->
  users_ok (link_row i g a <$> us) = true.
Proof.
  unfold users_ok. intros Hg Hok.
  apply andb_prop in Hok as [Hok Hp]. apply andb_prop in Hok as [Hok Hgo].
  apply andb_prop in Hok as [Hi He].
  apply bool_decide_eq_true in Hi, He, Hgo, Hp.
  assert (Ki : forall x, u_id (link_row i g a x) = u_id x)
    by (intros x; unfold link_row; now destruct (decide _)).
  assert (Ke : forall x, u_email (link_row i g a x) = u_email x)
    by (intros x; unfold link_row; now destruct (decide _)).
  assert (Kp : forall x, u_phone (link_row i g a x) = u_phone x)
    by (intros x; unfold link_row; now destruct (decide _)).
  rewrite <- !list_fmap_compose.
  rewrite (list_fmap_ext (u_id ∘ link_row i g a) u_id us)
    by (intros; simpl; auto).
  rewrite (list_fmap_ext (u_email ∘ link_row i g a) u_email us)
    by (intros; simpl; auto).
  rewrite (omap_fmap_ext u_phone (link_row i g a) u_phone) by assumption.
  rewrite !andb_true_iff, !bool_decide_eq_true.
  repeat split; try assumption.
  now apply NoDup_google_after_link.
Qed.

(** [update] in the link case, on a table that meets its constraints. *)
Lemma update_link (g : string) (picture : option string) (u : user_row)
  (d : db) :
  users_ok (users d) = true ->
  u ∈ users d ->
  (forall x, x ∈ users d -> u_google_id x <> Some g) ->
  (String.length g <= 255)%nat ->
  (forall a, avatar_after picture (u_avatar_url u) = Some a ->
             (String.length a <= 500)%nat) ->
  update D (u_id u) (link_data g picture u) d
  = (Ok (Some (without_hash (linked g picture u))),
     mkDb (link_row (u_id u) g (avatar_after picture (u_avatar_url u))
             <$> users d)
          (refresh_tokens d) (users_seq d) (tokens_seq d)).
Proof.
  intros Hok Hin Hg Hlg Hla. unfold update. rewrite no_fields_link_data.
  unfold write_users. unfold_m.
  rewrite (bind_update_link_data D g picture u Hlg Hla).
  set (a := avatar_after picture (u_avatar_url u)).
  assert (Ef : (fun x => if decide (u_id x = u_id u)
                         then apply_update
                                (mkBound None None (Some true) None
                                         (Some (Some g)) (Some a)) x
                         else x)
                  <$> users d
               = link_row (u_id u) g a <$> users d).
  { apply list_fmap_ext. intros n x _. unfold link_row.
    destruct (decide _); reflexivity. }
  rewrite Ef, users_ok_after_link by assumption.
  rewrite (filter_fmap_key u_id (link_row (u_id u) g a))
    by (intros x; unfold link_row; now destruct (decide _)).
  rewrite (filter_key_unique u_id (users d) u); [| | assumption].
  - simpl. unfold link_row. rewrite decide_True by reflexivity. reflexivity.
  - unfold users_ok in Hok. apply andb_prop in Hok as [Hok _].
    apply andb_prop in Hok as [Hok _]. apply andb_prop in Hok as [Hi _].
    now apply bool_decide_eq_true in Hi.
Qed.

End LinkingTable.

Section LinkingClaim.
Context (D : Deps).

(** C4, as amended: when the subject id of a verified assertion matches no
    user and its email matches an existing one, on a store that meets its
    constraints, with a subject id and avatars that fit the widths migration
    004 gives their columns (255 and 500 characters), [googleSignIn]
    succeeds for that user, creates no row, and rewrites that row alone:
    [google_id] becomes the subject id, [is_verified] becomes true,
    [avatar_url] becomes the assertion's picture whenever the assertion
    carries a non-empty one (whether or not the user already had an avatar)
    and is kept otherwise; the password hash and the other columns are
    kept. *)
Theorem googleSignIn_links_existing_account (now : Z)
  (rnd idToken clientId email : string) (payload : google_payload)
  (u : user_row) (d : db) :
  users_ok (users d) = true ->
  google_clientId D = Some clientId -> clientId <> "" ->
  verifyIdToken D idToken clientId = Ok payload ->
  g_email payload = Some email -> email <> "" ->
  (String.length (g_sub payload) <= 255)%nat ->
  (forall p, g_picture payload = Some p -> (String.length p <= 500)%nat) ->
  (forall a, u_avatar_url u = Some a -> (String.length a <= 500)%nat) ->
  findByGoogleId D (JStr (g_sub payload)) d = (Ok None, d) ->
  findByEmail D (JStr email) d = (Ok (Some u), d) ->
  let u' := linked (g_sub payload) (g_picture payload) u in
  exists res d',
    googleSignIn D now rnd idToken d = (Ok res, d')
    /\ l_user res = view_of u'
    /\ users d' = (fun x => if decide (x = u) then u' else x) <$> users d
    /\ findByEmail D (JStr email) d' = (Ok (Some u'), d')
    /\ u_password_hash u' = u_password_hash u
    /\ u_google_id u' = Some (g_sub payload)
    /\ u_is_verified u' = true
    /\ u_avatar_url u'
       = avatar_after (g_picture payload) (u_avatar_url u).
Proof.
  intros Hok Hc Hcne Hv He Hene Hls Hlp Hla Hg Hem u'.
  assert (Hlv : forall a,
             avatar_after (g_picture payload) (u_avatar_url u) = Some a ->
             (String.length a <= 500)%nat).
  { intros a. destruct (g_picture payload) as [[| c p] |]; simpl; auto. }
  destruct (nonempty_string _ Hcne) as (cc & cs & ->).
  destruct (nonempty_string _ Hene) as (ec & es & ->).
  rewrite findByGoogleId_eq in Hg. rewrite findByEmail_eq in Hem.
  injection Hg as Hg. injection Hem as Hem.
  assert (Hin : u ∈ users d).
  { apply head_Some_elem_of, list_elem_of_filter in Hem. tauto. }
  assert (Hue : u_email u = toLowerCase D (String ec es)).
  { apply head_Some_elem_of, list_elem_of_filter in Hem. tauto. }
  assert (Hng : forall x, x ∈ users d -> u_google_id x <> Some (g_sub payload)).
  { intros x Hx E. apply head_None in Hg.
    now apply (filter_nil_not_elem_of _ _ x Hg). }
  assert (Hid : NoDup (u_id <$> users d)).
  { unfold users_ok in Hok. apply andb_prop in Hok as [Hok' _].
    apply andb_prop in Hok' as [Hok' _]. apply andb_prop in Hok' as [Hi _].
    now apply bool_decide_eq_true in Hi. }
  set (a := avatar_after (g_picture payload) (u_avatar_url u)).
  assert (Etab : link_row (u_id u) (g_sub payload) a <$> users d
                 = (fun x => if decide (x = u) then u' else x) <$> users d).
  { apply list_fmap_ext. intros n x Hx. apply list_elem_of_lookup_2 in Hx.
    unfold link_row. destruct (decide (u_id x = u_id u)) as [E | E].
    - assert (x = u) as ->.
      { assert (Hf : x ∈ filter (fun y => u_id y = u_id u) (users d))
          by now apply list_elem_of_filter.
        rewrite (filter_key_unique u_id (users d) u Hid Hin) in Hf.
        now apply list_elem_of_singleton in Hf. }
      now rewrite decide_True.
    - rewrite decide_False; [reflexivity | congruence]. }
  eexists _, _. split.
  - unfold googleSignIn. rewrite Hc, Hv, He.
    unfold bind at 1. rewrite findByGoogleId_eq, Hg.
    unfold bind at 1. unfold bind at 1. rewrite findByEmail_eq, Hem.
    fold (link_data (g_sub payload) (g_picture payload) u).
    rewrite (update_link D) by assumption.
    rewrite issue_tokens_eq. reflexivity.
  - simpl. fold a. split; [reflexivity |]. split; [exact Etab |].
    split; [| repeat split; reflexivity].
    rewrite findByEmail_eq. simpl. rewrite Etab.
    rewrite (filter_fmap_key u_email
               (fun x => if decide (x = u) then u' else x)).
    + destruct (filter (fun y => u_email y = _) (users d)) as [| y l];
        [discriminate |].
      simpl in Hem. injection Hem as ->. simpl. now rewrite decide_True.
    + intros x. destruct (decide (x = u)) as [-> |]; reflexivity.
Qed.

End LinkingClaim.

(** ** Where the code departs from the specification *)

Section Departures.
Context (D : Deps).

(** C1 (defect in the code): after a registration, whatever its outcome,
    the login handler throws a TypeError on every request body, the one
    carrying the registered credentials included, because it hands the
    service an object without the [email] property the service reads; no
    login through the handler succeeds. *)
Theorem login_after_register_throws_TypeError (salt rnd : string) (now : Z)
  (b : authController.register_body) (d : db) (body : gmap string jsval) :
  let d1 := snd (authController.register D salt b d) in
  authController.login D now rnd body d1 = (Throw TypeError, d1)
  /\ authController.login D now rnd
       (<["email" := JStr (authController.b_email b)]>
          (<["identifier" := JStr (authController.b_email b)]>
             (<["password" := JStr (authController.b_password b)]> ∅))) d1
     = (Throw TypeError, d1).
Proof. split; apply controller_login_throws. Qed.

(** C2 (defect in the code): for an account without a password hash,
    [login] hands the NULL hash to [argon2.verify] and rethrows whatever that
    raises; it answers InvalidCredentials only if the verifier returns
    false. *)
Theorem login_without_password_hash_rethrows (now : Z) (rnd e : string)
  (password : jsval) (d : db) (u : user_row) (ex : exn) :
  findByEmail D (JStr e) d = (Ok (Some u), d) ->
  u_password_hash u = None ->
  argon2_verify D None password = Throw ex ->
  login D now rnd (JStr e) password d = (Throw ex, d).
Proof.
  intros Hf Hn Hv. unfold login, bind, lift. now rewrite Hf, Hn, Hv.
Qed.

(** C5 (defect in the code): for a user id that matches no row,
    [changePassword] throws a TypeError from reading [.email] of [null]; the
    NotFound it has in store for a missing user is not reached. *)
Theorem changePassword_unknown_user_throws_TypeError (salt : string)
  (userId : Z) (currentPassword : jsval) (newPassword : string) (d : db) :
  findById userId d = (Ok None, d) ->
  changePassword D salt userId currentPassword newPassword d
  = (Throw TypeError, d).
Proof. intros H. unfold changePassword, bind. now rewrite H. Qed.

End Departures.

(** C3, counterexample: at the very instant of expiry a live token is still
    accepted. *)
Lemma refresh_at_expiry_instant_is_accepted :
  ~ expired_from_expiry_on Sample.plain 1000 "tok-a" Sample.store.
Proof.
  intros H.
  specialize (H (mkTokenData 1 1 1000 false "alice@x.com" (Some "Alice")
                             "customer" None false)
                eq_refl eq_refl ltac:(simpl; lia)).
  vm_compute in H. discriminate H.
Qed.

(** C4, counterexample: Alice has an avatar, the assertion carries a
    picture, and the link replaces the avatar. *)
Lemma link_overwrites_existing_avatar :
  ~ link_keeps_existing_avatar Sample.google 1000 "rnd" "id-token" Sample.store.
Proof.
  intros H.
  specialize (H "client-1" Sample.ticket "Alice@X.com" Sample.alice
                (linked "g-1" (Some "new.png") Sample.alice)
                eq_refl eq_refl eq_refl eq_refl eq_refl eq_refl
                ltac:(discriminate)).
  vm_compute in H. discriminate H.
Qed.

(** ** The properties at concrete inputs *)

Lemma login_without_password_hash_rethrows_witness :
  login Sample.plain 1000 "rnd" (JStr "fed@x.com") (JStr "anything")
        Sample.store
  = (Throw TypeError, Sample.store)
  /\ TypeError <> InvalidCredentials.
Proof.
  split; [| discriminate].
  apply (login_without_password_hash_rethrows Sample.plain 1000 "rnd"
           "fed@x.com" (JStr "anything") Sample.store Sample.fed TypeError);
    reflexivity.
Defined.

Lemma changePassword_unknown_user_throws_TypeError_witness :
  changePassword Sample.plain "salt" 99 (JStr "password1") "password2"
                 Sample.store
  = (Throw TypeError, Sample.store)
  /\ TypeError <> NotFound.
Proof.
  split; [| discriminate].
  apply (changePassword_unknown_user_throws_TypeError Sample.plain "salt" 99
           (JStr "password1") "password2" Sample.store).
  reflexivity.
Defined.

Lemma refresh_checks_in_order_witness :
  refreshAccessToken Sample.plain 1001 (Some "tok-a") Sample.store
  = (Throw TokenExpired, Sample.store)
  /\ refreshAccessToken Sample.plain 9999 (Some "tok-r") Sample.store
     = (Throw TokenRevoked, Sample.store)
  /\ exists r, refreshAccessToken Sample.plain 1000 (Some "tok-a") Sample.store
               = (Ok r, Sample.store).
Proof.
  split; [| split].
  - destruct (refresh_checks_in_order Sample.plain 1001 (Some "tok-a")
                Sample.store) as [_ H].
    destruct (H "tok-a" eq_refl ltac:(discriminate)) as [_ H'].
    edestruct H' as (_ & Hx & _); [reflexivity |].
    apply Hx; [reflexivity | simpl; lia].
  - destruct (refresh_checks_in_order Sample.plain 9999 (Some "tok-r")
                Sample.store) as [_ H].
    destruct (H "tok-r" eq_refl ltac:(discriminate)) as [_ H'].
    edestruct H' as (Hr & _); [reflexivity |].
    apply Hr. reflexivity.
  - destruct (refresh_checks_in_order Sample.plain 1000 (Some "tok-a")
                Sample.store) as [_ H].
    destruct (H "tok-a" eq_refl ltac:(discriminate)) as [_ H'].
    edestruct H' as (_ & _ & Hok); [reflexivity |].
    apply Hok; [reflexivity | simpl; lia].
Defined.

Lemma refresh_does_not_rotate_witness :
  exists r, refreshAccessToken Sample.plain 1000 (Some "tok-a") Sample.store
            = (Ok r, Sample.store).
Proof.
  destruct (refresh_does_not_rotate Sample.plain 500 (Some "tok-a")
              Sample.store) as [_ H].
  edestruct H as (Ed & t & td & Et & Hf & Hr & Hlater); [reflexivity |].
  injection Et as <-. vm_compute in Hf. injection Hf as <-.
  destruct (Hlater 1000 ltac:(simpl; lia)) as (r' & Hr' & _).
  exists r'. exact Hr'.
Defined.

Lemma logoutAll_revokes_only_the_user_witness :
  refreshAccessToken Sample.plain 500 (Some "tok-a")
                     (snd (logoutAll 1 Sample.store))
  = (Throw TokenRevoked, snd (logoutAll 1 Sample.store))
  /\ fst (refreshAccessToken Sample.plain 500 (Some "tok-f")
                             (snd (logoutAll 1 Sample.store)))
     = fst (refreshAccessToken Sample.plain 500 (Some "tok-f") Sample.store).
Proof.
  destruct (logoutAll_revokes_only_the_user Sample.plain 1 Sample.store)
    as (_ & _ & _ & _ & H).
  split.
  - edestruct (H 500 "tok-a") as [Ha _];
      [discriminate | reflexivity | apply Ha; reflexivity].
  - edestruct (H 500 "tok-f") as [_ Hf];
      [discriminate | reflexivity | apply Hf; discriminate].
Defined.

Lemma Sample_digest_differs : digest_differs Sample.plain.
Proof.
  intros t H. apply (f_equal String.length) in H.
  change (S (S (S (S (S (S (S (String.length t))))))) = String.length t) in H.
  lia.
Qed.

Lemma refresh_token_stored_as_hash_witness :
  (exists res d',
     login Sample.plain 1000 "rnd" (JStr "alice@x.com") (JStr "password1")
           Sample.store = (Ok res, d')
     /\ l_refreshToken res = "rnd"
     /\ refresh_tokens d'
        = (refresh_tokens Sample.store
           ++ [mkToken 4 1 "sha256:rnd" 604801000 false])%list
     /\ forall row, row ∈ refresh_tokens d' -> rt_token_hash row <> "rnd")
  /\ refreshAccessToken Sample.plain 1000 (Some "tok-x") Sample.store
     = (Throw InvalidToken, Sample.store).
Proof.
  destruct (refresh_token_stored_as_hash Sample.plain 1000 Sample.store)
    as (H & _ & _ & _ & _ & _ & Hp & Hr & _).
  split.
  - edestruct (H "rnd" (JStr "alice@x.com") (JStr "password1")) as [H1 H2];
      [reflexivity |].
    eexists _, _. split; [reflexivity |].
    split; [exact H1 |]. split; [exact H2 |].
    refine (proj1 (Hp Sample_digest_differs "rnd" _) (JStr "alice@x.com")
                  (JStr "password1")).
    intros row Hrow.
    apply elem_of_cons in Hrow as [-> | Hrow]; [discriminate |].
    apply elem_of_cons in Hrow as [-> | Hrow]; [discriminate |].
    apply elem_of_cons in Hrow as [-> | Hrow]; [discriminate |].
    now apply elem_of_nil in Hrow.
  - apply (Hr "tok-x" ltac:(discriminate)).
    intros row u Hrow _ _.
    apply elem_of_cons in Hrow as [-> | Hrow]; [discriminate |].
    apply elem_of_cons in Hrow as [-> | Hrow]; [discriminate |].
    apply elem_of_cons in Hrow as [-> | Hrow]; [discriminate |].
    now apply elem_of_nil in Hrow.
Defined.

Lemma register_twice_same_email_witness :
  register Sample.plain "salt2" "bob@x.COM" "password2" (Some "Robert")
           JUndefined None Sample.after_bob
  = (Throw AccountExists, Sample.after_bob).
Proof.
  apply (register_twice_same_email Sample.plain "salt1" "salt2" "Bob@X.com"
           "bob@x.COM" "password1" "password2" (Some "Bob") (Some "Robert")
           JUndefined JUndefined None None Sample.empty Sample.after_bob
           (mkRegisterView 1 "bob@x.com" (Some "Bob") "customer"));
    reflexivity.
Defined.

Lemma register_role_is_unprivileged_witness :
  authController.userRole (JStr "super_admin") = "customer"
  /\ exists u,
       users (snd (authController.register Sample.plain "salt"
                     (authController.mkRegisterBody "Eve@X.com" "password1"
                        "Eve" JUndefined (JStr "super_admin"))
                     Sample.store))
       = (users Sample.store ++ [u])%list
       /\ u_role u = "customer".
Proof.
  destruct (register_role_is_unprivileged Sample.plain "salt"
              (authController.mkRegisterBody "Eve@X.com" "password1" "Eve"
                 JUndefined (JStr "super_admin"))
              Sample.store) as (_ & Hrole & _ & Hok).
  split.
  - apply Hrole; discriminate.
  - edestruct Hok as (Hv & u & Hu & _ & Hr); [reflexivity |].
    exists u. split; [exact Hu |].
    rewrite Hr. apply Hrole; discriminate.
Defined.

Lemma googleSignIn_links_existing_account_witness :
  exists res d',
    googleSignIn Sample.google 1000 "rnd" "id-token" Sample.store
    = (Ok res, d')
    /\ findByEmail Sample.google (JStr "Alice@X.com") d'
       = (Ok (Some (linked "g-1" (Some "new.png") Sample.alice)), d').
Proof.
  destruct (googleSignIn_links_existing_account Sample.google 1000 "rnd"
              "id-token" "client-1" "Alice@X.com" Sample.ticket Sample.alice
              Sample.store eq_refl eq_refl ltac:(discriminate) eq_refl eq_refl
              ltac:(discriminate) ltac:(simpl; lia)
              ltac:(intros p [= <-]; simpl; lia)
              ltac:(intros a [= <-]; simpl; lia) eq_refl eq_refl)
    as (res & d' & H1 & _ & _ & H4 & _).
  exists res, d'. split; [exact H1 | exact H4].
Defined.

(** * Further properties of the module *)

(** ** Logout *)

Section Logout.
Context (D : Deps).

Lemma join_users_revoke (us : list user_row) (t : token_row) :
  join_users us (revoke t) = revoke_data <$> join_users us t.
Proof.
  unfold join_users. rewrite <- list_fmap_compose. reflexivity.
Qed.

Lemma rows_after_revoke_same (h : string) (us : list user_row)
  (ts : list token_row) :
  filter (fun t => rt_token_hash t = h)
         ((fun t => if decide (rt_token_hash t = h) then revoke t else t)
            <$> ts)
    ≫= join_users us
  = revoke_data <$> (filter (fun t => rt_token_hash t = h) ts ≫= join_users us).
Proof.
  induction ts as [| t ts IH]; [reflexivity |].
  rewrite fmap_cons. destruct (decide (rt_token_hash t = h)) as [E | E].
  - rewrite !filter_cons_True by (simpl; exact E).
    rewrite !bind_cons, fmap_app, IH, join_users_revoke. reflexivity.
  - rewrite !filter_cons_False by exact E. exact IH.
Qed.

Lemma rows_after_revoke_other (h h' : string) (us : list user_row)
  (ts : list token_row) :
  h' <> h ->
  filter (fun t => rt_token_hash t = h')
         ((fun t => if decide (rt_token_hash t = h) then revoke t else t)
            <$> ts)
    ≫= join_users us
  = filter (fun t => rt_token_hash t = h') ts ≫= join_users us.
Proof.
  intros Hne. induction ts as [| t ts IH]; [reflexivity |].
  rewrite fmap_cons. destruct (decide (rt_token_hash t = h)) as [E | E].
  - rewrite !filter_cons_False by (simpl; congruence). exact IH.
  - destruct (decide (rt_token_hash t = h')) as [E' | E'].
    + rewrite !filter_cons_True by exact E'. now rewrite !bind_cons, IH.
    + rewrite !filter_cons_False by exact E'. exact IH.
Qed.

(** X1: once [logout] has run for a token, a refresh with that token fails
    at every instant: with TokenRevoked if a row answered the lookup before
    the logout, with InvalidToken if none did. The users table is not
    touched. *)
Theorem logout_then_refresh_fails (now : Z) (t : string) (d : db) :
  t <> "" ->
  let d' := snd (logout D (Some t) d) in
  fst (logout D (Some t) d) = Ok tt
  /\ users d' = users d
  /\ (findRefreshToken (hashToken D t) d = (Ok None, d) ->
      refreshAccessToken D now (Some t) d' = (Throw InvalidToken, d'))
  /\ (forall td,
        findRefreshToken (hashToken D t) d = (Ok (Some td), d) ->
        refreshAccessToken D now (Some t) d' = (Throw TokenRevoked, d')).
Proof.
  intros Ht. destruct (nonempty_string t Ht) as (c & s & ->). cbv zeta.
  split; [reflexivity |]. split; [reflexivity |].
  rewrite refresh_cases. cbv zeta.
  unfold logout, revokeRefreshToken, update_tokens, findRefreshToken. simpl.
  rewrite rows_after_revoke_same.
  destruct (filter _ (refresh_tokens d) ≫= join_users (users d))
    as [| td0 l]; simpl; split; try discriminate; reflexivity.
Qed.

(** X2: [logout] never fails; without a token (absent or empty) it leaves
    the store as it is; running it twice is running it once; and it leaves
    alone every token whose hash differs, so a refresh with such a token
    gives what it gave before. *)
Theorem logout_idempotent_and_local (tok : option string) (d : db) :
  let d' := snd (logout D tok d) in
  fst (logout D tok d) = Ok tt
  /\ (tok = None \/ tok = Some "" -> d' = d)
  /\ snd (logout D tok d') = d'
  /\ users d' = users d
  /\ forall now t t2,
       tok = Some t -> t2 <> "" -> hashToken D t2 <> hashToken D t ->
       fst (refreshAccessToken D now (Some t2) d')
       = fst (refreshAccessToken D now (Some t2) d).
Proof.
  cbv zeta. destruct tok as [[| c s] |].
  - repeat split; reflexivity.
  - split; [reflexivity |]. split; [intros [? | ?]; discriminate |].
    split; [| split; [reflexivity |]].
    + unfold logout, revokeRefreshToken, update_tokens. simpl. f_equal.
      rewrite <- list_fmap_compose. apply list_fmap_ext. intros i t _. simpl.
      destruct (decide (rt_token_hash t = _)) as [E | E]; simpl.
      * now rewrite decide_True.
      * now rewrite decide_False.
    + intros now t t2 [= <-] Ht2 Hne.
      destruct (nonempty_string t2 Ht2) as (c2 & s2 & ->).
      rewrite !refresh_cases. cbv zeta.
      unfold logout, revokeRefreshToken, update_tokens, findRefreshToken.
      simpl. rewrite rows_after_revoke_other by exact Hne.
      destruct (head _) as [td |]; [| reflexivity].
      destruct (td_is_revoked td); [reflexivity |].
      destruct (td_expires_at td <? now); reflexivity.
  - repeat split; reflexivity.
Qed.

End Logout.

(** ** Lookups of refresh tokens, read backwards *)

Section TokenRows.
Context (D : Deps).

Lemma head_rows_cleanup (now : Z) (h : string) (us : list user_row)
  (ts : list token_row) (td : token_data) :
  head (filter (fun t => rt_token_hash t = h) ts ≫= join_users us) = Some td ->
  td_is_revoked td = false -> now <= td_expires_at td ->
  head (filter (fun t => rt_token_hash t = h)
               (filter (fun t => ~ (rt_expires_at t < now
                                    \/ rt_is_revoked t = true)) ts)
        ≫= join_users us) = Some td.
Proof.
  intros Hh Hr Hx. induction ts as [| t ts IH]; [discriminate |].
  destruct (decide (rt_token_hash t = h)) as [E | E].
  - rewrite filter_cons_True, bind_cons in Hh by exact E.
    destruct (join_users us t) as [| td1 l] eqn:Ej.
    + simpl in Hh. specialize (IH Hh).
      destruct (decide (~ (rt_expires_at t < now \/ rt_is_revoked t = true)))
        as [K | K].
      * rewrite (filter_cons_True _ t ts) by exact K.
        rewrite filter_cons_True, bind_cons, Ej by exact E. exact IH.
      * rewrite (filter_cons_False _ t ts) by exact K. exact IH.
    + simpl in Hh. injection Hh as ->.
      assert (Hin : td ∈ join_users us t) by (rewrite Ej; left).
      apply join_users_elem in Hin as (u & _ & _ & Etd).
      assert (K : ~ (rt_expires_at t < now \/ rt_is_revoked t = true)).
      { rewrite Etd in Hr, Hx. simpl in Hr, Hx. intros [? | ?]; [lia |].
        congruence. }
      rewrite (filter_cons_True _ t ts) by exact K.
      rewrite filter_cons_True, bind_cons, Ej by exact E. reflexivity.
  - rewrite filter_cons_False in Hh by exact E. specialize (IH Hh).
    destruct (decide (~ (rt_expires_at t < now \/ rt_is_revoked t = true)))
      as [K | K].
    + rewrite (filter_cons_True _ t ts) by exact K.
      rewrite filter_cons_False by exact E. exact IH.
    + rewrite (filter_cons_False _ t ts) by exact K. exact IH.
Qed.

(** X3: [cleanupExpiredTokens] keeps the users table and every row that is
    neither revoked nor past its expiry, and leaves no other row; a refresh
    that succeeded at that instant succeeds afterwards with the same answer;
    on the store it leaves no refresh fails with TokenRevoked, at any
    instant; and a token all of whose rows were revoked or past their expiry
    at the sweep is unknown afterwards: a refresh with it fails with
    InvalidToken at any instant. (A token that has a revoked row and, under
    the same hash, a live one is not in that case: the live row stays.) *)
Theorem cleanup_removes_only_terminal_rows (now : Z) (d : db) :
  let d' := snd (cleanupExpiredTokens now d) in
  users d' = users d
  /\ Forall (fun t => rt_is_revoked t = false /\ now <= rt_expires_at t)
            (refresh_tokens d')
  /\ (forall t, t ∈ refresh_tokens d -> ~ terminal now t ->
                t ∈ refresh_tokens d')
  /\ (forall tok r,
        refreshAccessToken D now tok d = (Ok r, d) ->
        refreshAccessToken D now tok d' = (Ok r, d'))
  /\ (forall now' tok,
        fst (refreshAccessToken D now' tok d') <> Throw TokenRevoked)
  /\ (forall now' t,
        t <> "" ->
        (forall row, row ∈ refresh_tokens d ->
                     rt_token_hash row = hashToken D t -> terminal now row) ->
        refreshAccessToken D now' (Some t) d' = (Throw InvalidToken, d')).
Proof.
  cbv zeta. split; [reflexivity |].
  assert (Hall : Forall (fun t => rt_is_revoked t = false
                                  /\ now <= rt_expires_at t)
                        (refresh_tokens (snd (cleanupExpiredTokens now d)))).
  { unfold cleanupExpiredTokens. simpl. apply Forall_forall. intros t Ht.
    apply list_elem_of_filter in Ht as [K _]. split.
    - destruct (rt_is_revoked t); [exfalso; apply K; now right | reflexivity].
    - destruct (decide (rt_expires_at t < now)); [exfalso; apply K; now left |].
      lia. }
  split; [exact Hall |]. split; [| split; [| split]].
  - intros t Ht K. unfold cleanupExpiredTokens. simpl.
    apply list_elem_of_filter. split; [exact K | exact Ht].
  - intros [[| c s] |] r; try discriminate.
    rewrite !refresh_cases. cbv zeta.
    unfold findRefreshToken, cleanupExpiredTokens. simpl.
    destruct (head _) as [td |] eqn:Hh; [| discriminate].
    destruct (td_is_revoked td) eqn:Hr; [discriminate |].
    destruct (td_expires_at td <? now) eqn:Hx; [discriminate |].
    apply Z.ltb_ge in Hx.
    rewrite (head_rows_cleanup now _ _ _ td Hh Hr Hx), Hr.
    apply Z.ltb_ge in Hx. rewrite Hx. now intros [= <-].
  - intros now' [[| c s] |]; try discriminate.
    rewrite refresh_cases. cbv zeta.
    set (d' := snd (cleanupExpiredTokens now d)) in *.
    unfold findRefreshToken. simpl.
    destruct (head _) as [td |] eqn:Hh; [| discriminate].
    apply head_Some_elem_of, rows_elem in Hh as (t & Ht & _ & Htd).
    apply join_users_elem in Htd as (u & _ & _ & ->). simpl.
    rewrite Forall_forall in Hall. destruct (Hall t Ht) as [-> _].
    destruct (_ <? _); discriminate.
  - intros now' t Ht Hterm. destruct (nonempty_string t Ht) as (c & s & ->).
    rewrite refresh_cases. cbv zeta.
    unfold findRefreshToken, cleanupExpiredTokens. simpl.
    rewrite (filter_none (fun t => rt_token_hash t = hashToken D (String c s)));
      [reflexivity |].
    intros row Hrow Hh. apply list_elem_of_filter in Hrow as [K Hrow].
    apply K. now apply Hterm.
Qed.

(** X16: [refreshAccessToken] succeeds only for a non-empty token whose hash
    is on a stored row that is unrevoked and not past its expiry, and whose
    owner is in the users table; the view it returns and the claims it signs
    are read from the owner's row as it is stored at that moment. *)
Theorem refresh_succeeds_only_for_live_stored_token (now : Z)
  (tok : option string) (d d' : db) (r : refresh_result) :
  refreshAccessToken D now tok d = (Ok r, d') ->
  exists t row u,
    tok = Some t /\ t <> ""
    /\ row ∈ refresh_tokens d
    /\ rt_token_hash row = hashToken D t
    /\ rt_is_revoked row = false
    /\ now <= rt_expires_at row
    /\ u ∈ users d
    /\ u_id u = rt_user_id row
    /\ r_user r = mkRefreshView (u_id u) (u_email u) (u_full_name u)
                                (u_role u) (u_tenant_id u)
    /\ r_accessToken r
       = jwt_sign D now (mkClaims (u_id u) (u_email u) (u_role u)
                                  (u_tenant_id u)).
Proof.
  destruct tok as [[| c s] |]; try discriminate.
  rewrite refresh_cases. cbv zeta. unfold findRefreshToken. simpl.
  destruct (head _) as [td |] eqn:Hh; [| discriminate].
  apply head_Some_elem_of, rows_elem in Hh as (row & Hrow & Hhash & Htd).
  apply join_users_elem in Htd as (u & Hu & Hid & ->). simpl.
  destruct (rt_is_revoked row) eqn:Hr; [discriminate |].
  destruct (rt_expires_at row <? now) eqn:Hx; [discriminate |].
  apply Z.ltb_ge in Hx. intros [= <- <-].
  exists (String c s), row, u. rewrite Hid.
  repeat split; try assumption; try reflexivity. discriminate.
Qed.

End TokenRows.

(** ** Login, read backwards *)

Section LoginSound.
Context (D : Deps).

Lemma login_success_inv (now : Z) (rnd : string) (e p : jsval) (d d' : db)
  (res : login_result) :
  login D now rnd e p d = (Ok res, d') ->
  exists s u,
    e = JStr s
    /\ head (filter (fun u => u_email u = toLowerCase D s) (users d)) = Some u
    /\ argon2_verify D (u_password_hash u) p = Ok true
    /\ res = mkLoginResult (view_of u)
               (jwt_sign D now (mkClaims (u_id u) (u_email u) (u_role u)
                                         (u_tenant_id u)))
               rnd (now + refreshLifetime D)
    /\ d' = mkDb (users d)
                 (refresh_tokens d
                  ++ [mkToken (tokens_seq d) (u_id u) (hashToken D rnd)
                              (now + refreshLifetime D) false])
                 (users_seq d) (tokens_seq d + 1).
Proof.
  unfold login. destruct e as [| | b | n | s]; try discriminate.
  unfold bind at 1. rewrite findByEmail_eq.
  destruct (head _) as [u |] eqn:Hh; [| discriminate].
  unfold bind, lift.
  destruct (argon2_verify D (u_password_hash u) p) as [[|] | ex] eqn:Hv;
    try discriminate.
  simpl. rewrite issue_tokens_eq. intros [= <- <-].
  exists s, u. repeat split; assumption.
Qed.

Lemma login_failure_inv (now : Z) (rnd : string) (e p : jsval) (d d' : db)
  (ex : exn) :
  login D now rnd e p d = (Throw ex, d') -> d' = d.
Proof.
  unfold login, findByEmail. unfold_m.
  destruct (call_toLowerCase D e) as [s | ex']; [| now intros [= _ <-]].
  destruct (head _) as [u |]; [| now intros [= _ <-]].
  destruct (argon2_verify D (u_password_hash u) p) as [[|] | ex'];
    simpl; now intros [= _ <-].
Qed.

(** X15: a [login] that fails leaves the store exactly as it was; one that
    succeeds was given a string, found a user whose stored email is its
    lower-case form, and had [argon2.verify] accept the password against
    that user's stored hash; it returns that user's view and leaves the
    users table as it was. *)
Theorem login_succeeds_only_when_verified (now : Z) (rnd : string)
  (e p : jsval) (d : db) :
  (forall ex, fst (login D now rnd e p d) = Throw ex ->
              snd (login D now rnd e p d) = d)
  /\ forall res d',
       login D now rnd e p d = (Ok res, d') ->
       exists s u,
         e = JStr s
         /\ u ∈ users d
         /\ u_email u = toLowerCase D s
         /\ argon2_verify D (u_password_hash u) p = Ok true
         /\ l_user res = view_of u
         /\ users d' = users d.
Proof.
  split.
  - intros ex H. destruct (login D now rnd e p d) as [o d'] eqn:E.
    simpl in H. subst o. simpl. eapply login_failure_inv. exact E.
  - intros res d' H.
    destruct (login_success_inv _ _ _ _ _ _ _ H)
      as (s & u & -> & Hh & Hv & -> & ->).
    exists s, u. apply head_Some_elem_of, list_elem_of_filter in Hh.
    destruct Hh. repeat split; assumption || reflexivity.
Qed.

End LoginSound.

(** ** Change of password, as a write *)

Section ChangePasswordFrame.
Context (D : Deps).

Lemma changePassword_shape (salt : string) (userId : Z)
  (currentPassword : jsval) (newPassword : string) (d : db) :
  (exists ex, changePassword D salt userId currentPassword newPassword d
              = (Throw ex, d))
  \/ changePassword D salt userId currentPassword newPassword d
     = (Ok "Password changed successfully.",
        mkDb (with_password userId (argon2_hash D salt newPassword) <$> users d)
             (refresh_tokens d) (users_seq d) (tokens_seq d)).
Proof.
  pose proof (users_ok_with_password userId (argon2_hash D salt newPassword)
                (users d)) as Hk.
  remember (changePassword D salt userId currentPassword newPassword d)
    as r eqn:Er.
  unfold changePassword in Er. unfold bind at 1 in Er.
  rewrite findById_eq in Er.
  destruct (head _) as [row |]; simpl in Er; [| left; eexists; exact Er].
  unfold bind at 1 in Er. unfold lift at 1 in Er. unfold bind at 1 in Er.
  rewrite findByEmail_eq in Er.
  destruct (head _) as [user |]; [| left; eexists; exact Er].
  unfold updatePassword, write_users in Er. unfold_m.
  fold (with_password userId (argon2_hash D salt newPassword)) in Er.
  destruct (truthy (of_column (u_password_hash user))).
  - destruct (argon2_verify D (u_password_hash user) currentPassword)
      as [[|] | ex]; simpl in Er; try (left; eexists; exact Er).
    rewrite Hk in Er.
    destruct (users_ok (users d)); [right | left; eexists]; exact Er.
  - rewrite Hk in Er.
    destruct (users_ok (users d)); [right | left; eexists]; exact Er.
Qed.

(** X8: [changePassword] either fails and leaves the store exactly as it
    was, or succeeds and rewrites the password hash of the rows with that id
    and nothing else: no other column, no other user, and no refresh-token
    row, so the sessions open before the change stay valid. *)
Theorem changePassword_touches_only_the_hash (salt : string) (userId : Z)
  (currentPassword : jsval) (newPassword : string) (d : db) :
  let d' := snd (changePassword D salt userId currentPassword newPassword d) in
  refresh_tokens d' = refresh_tokens d
  /\ (forall ex,
        fst (changePassword D salt userId currentPassword newPassword d)
        = Throw ex -> d' = d)
  /\ (forall msg,
        fst (changePassword D salt userId currentPassword newPassword d)
        = Ok msg ->
        users d'
        = with_password userId (argon2_hash D salt newPassword) <$> users d)
  /\ forall now tok,
       fst (refreshAccessToken D now tok d')
       = fst (refreshAccessToken D now tok d).
Proof.
  cbv zeta.
  destruct (changePassword_shape salt userId currentPassword newPassword d)
    as [[ex ->] | ->]; simpl.
  - repeat split; try reflexivity. discriminate.
  - split; [reflexivity |]. split; [discriminate |]. split; [reflexivity |].
    intros now [[| c s] |]; try reflexivity.
    rewrite !refresh_cases. cbv zeta. unfold findRefreshToken. simpl.
    assert (E : forall t,
               join_users (with_password userId (argon2_hash D salt newPassword)
                             <$> users d) t
               = join_users (users d) t).
    { intros t. unfold join_users.
      rewrite (filter_fmap_key u_id
                 (with_password userId (argon2_hash D salt newPassword)))
        by (intros x; unfold with_password; now destruct (decide _)).
      rewrite <- list_fmap_compose. apply list_fmap_ext. intros i x _.
      unfold with_password. simpl. now destruct (decide _). }
    rewrite (list_bind_ext _ (join_users (users d)) _
               (filter (fun t => rt_token_hash t = hashToken D (String c s))
                       (refresh_tokens d))) by (intros; auto).
    destruct (head _) as [td |]; [| reflexivity].
    destruct (td_is_revoked td); [reflexivity |].
    destruct (td_expires_at td <? now); reflexivity.
Qed.

End ChangePasswordFrame.

(** ** Refresh-token rows over the life of the store *)

Section TokenMonotone.
Context (D : Deps).

Lemma token_kept_refl (t : token_row) : token_kept t t.
Proof. unfold token_kept. auto. Qed.

Lemma tokens_evolve_refl (l : list token_row) : tokens_evolve l l.
Proof. intros i t H. exists t. split; [exact H | apply token_kept_refl]. Qed.

Lemma tokens_evolve_app (l k : list token_row) : tokens_evolve l (l ++ k).
Proof.
  intros i t H. exists t. split; [| apply token_kept_refl].
  now apply lookup_app_l_Some.
Qed.

Lemma tokens_evolve_revoke (P : token_row -> Prop)
  `{!forall t, Decision (P t)} (l : list token_row) :
  tokens_evolve l ((fun t => if decide (P t) then revoke t else t) <$> l).
Proof.
  intros i t Hl. rewrite list_lookup_fmap, Hl. simpl. eexists. split;
    [reflexivity |].
  destruct (decide (P t)); [| apply token_kept_refl].
  unfold token_kept. simpl. auto.
Qed.

Lemma sign_in_tokens_evolve (op : Z -> string -> M login_result) (d : db) :
  resolves_then_issues D op d ->
  forall now rnd,
    tokens_evolve (refresh_tokens d) (refresh_tokens (snd (op now rnd d))).
Proof.
  intros (o & d0 & Ht & _ & E) now rnd. rewrite E.
  destruct o as [u | ex]; [rewrite issue_tokens_eq |]; simpl; rewrite Ht.
  - apply tokens_evolve_app.
  - apply tokens_evolve_refl.
Qed.

(** X13: no operation of the service deletes a refresh-token row, moves it,
    changes its owner, hash or expiry, or clears its revoked flag: after
    [register], [login], [googleSignIn], [refreshAccessToken], [logout],
    [logoutAll], [updateProfile] or [changePassword], every row is at the
    position it had, the same but for having possibly been revoked. *)
Theorem token_rows_are_kept_and_never_unrevoked (d : db) :
  (forall salt email password fullName phone role,
     tokens_evolve (refresh_tokens d)
       (refresh_tokens
          (snd (register D salt email password fullName phone role d))))
  /\ (forall now rnd e p,
        tokens_evolve (refresh_tokens d)
          (refresh_tokens (snd (login D now rnd e p d))))
  /\ (forall now rnd idToken,
        tokens_evolve (refresh_tokens d)
          (refresh_tokens (snd (googleSignIn D now rnd idToken d))))
  /\ (forall now tok,
        tokens_evolve (refresh_tokens d)
          (refresh_tokens (snd (refreshAccessToken D now tok d))))
  /\ (forall tok,
        tokens_evolve (refresh_tokens d)
          (refresh_tokens (snd (logout D tok d))))
  /\ (forall userId,
        tokens_evolve (refresh_tokens d)
          (refresh_tokens (snd (logoutAll userId d))))
  /\ (forall userId data,
        tokens_evolve (refresh_tokens d)
          (refresh_tokens (snd (updateProfile D userId data d))))
  /\ (forall salt userId currentPassword newPassword,
        tokens_evolve (refresh_tokens d)
          (refresh_tokens
             (snd (changePassword D salt userId currentPassword newPassword
                     d)))).
Proof.
  repeat split.
  - intros salt email password fullName phone role.
    destruct (register D salt email password fullName phone role d)
      as [[v | ex] d1] eqn:E; simpl.
    + destruct (register_success _ _ _ _ _ _ _ _ _ _ E)
        as (u & _ & _ & _ & _ & _ & _ & _ & ->).
      apply tokens_evolve_refl.
    + destruct (register_failure _ _ _ _ _ _ _ _ _ _ E) as [_ ->].
      apply tokens_evolve_refl.
  - intros now rnd e p.
    apply (sign_in_tokens_evolve (fun now rnd => login D now rnd e p) d
             (login_resolves_then_issues D e p d)).
  - intros now rnd idToken.
    apply (sign_in_tokens_evolve
             (fun now rnd => googleSignIn D now rnd idToken) d
             (googleSignIn_resolves_then_issues D idToken d)).
  - intros now tok. rewrite refresh_reads_only. apply tokens_evolve_refl.
  - intros [[| c s] |]; try apply tokens_evolve_refl.
    unfold logout, revokeRefreshToken, update_tokens. simpl.
    apply (tokens_evolve_revoke
             (fun t => rt_token_hash t = hashToken D (String c s))).
  - intros userId. unfold logoutAll, revokeAllUserTokens, update_tokens.
    simpl. apply (tokens_evolve_revoke (fun t => rt_user_id t = userId)).
  - intros userId data. unfold updateProfile.
    destruct (update_keeps_tokens D userId data d) as [-> _].
    apply tokens_evolve_refl.
  - intros salt userId currentPassword newPassword.
    destruct (changePassword_shape D salt userId currentPassword newPassword d)
      as [[ex ->] | ->]; simpl; apply tokens_evolve_refl.
Qed.

End TokenMonotone.

(** ** Updates of a user row *)

Section Updates.
Context (D : Deps).

Lemma Forall2_fmap_self {A} (R : A -> A -> Prop) (f : A -> A) (l : list A) :
  (forall x, R x (f x)) -> Forall2 R l (f <$> l).
Proof. intros H. induction l; constructor; auto. Qed.

Lemma Forall2_same {A} (R : A -> A -> Prop) (l : list A) :
  (forall x, R x x) -> Forall2 R l l.
Proof. intros H. induction l; constructor; auto. Qed.



(** [update], with the values it binds named. *)
Lemma update_eq (i : Z) (data : gmap string jsval) (d : db) :
  update D i data d
  = if no_fields data then (Ok None, d)
    else match bind_update D data with
         | Throw ex => (Throw ex, d)
         | Ok b =>
             let us' := (fun u => if decide (u_id u = i) then apply_update b u
                                  else u) <$> users d in
             if users_ok us'
             then (Ok (head (without_hash <$> filter (fun u => u_id u = i) us')),
                   mkDb us' (refresh_tokens d) (users_seq d) (tokens_seq d))
             else (Throw (DatabaseError "unique_violation"), d)
         end.
Proof.
  unfold update, write_users. destruct (no_fields data); [reflexivity |].
  unfold_m. destruct (bind_update D data) as [b | ex]; [| reflexivity].
  cbv zeta. now destruct (users_ok _).
Qed.

(** What [update] leaves in the users table. *)
Lemma update_users (i : Z) (data : gmap string jsval) (d : db) :
  users (snd (update D i data d)) = users d
  \/ (exists b,
        no_fields data = false
        /\ bind_update D data = Ok b
        /\ users (snd (update D i data d))
           = (fun u => if decide (u_id u = i) then apply_update b u else u)
               <$> users d).
Proof.
  rewrite update_eq. destruct (no_fields data); [now left |].
  destruct (bind_update D data) as [b | ex]; [| now left]. cbv zeta.
  destruct (users_ok _); [right; exists b | left]; simpl; auto.
Qed.


Lemma profile_data_props (a b : jsval) :
  let data : gmap string jsval := <["fullName" := a]> (<["phone" := b]> ∅) in
  prop data "fullName" = a
  /\ prop data "phone" = b
  /\ prop data "isVerified" = JUndefined
  /\ prop data "tenantId" = JUndefined
  /\ prop data "googleId" = JUndefined
  /\ prop data "avatarUrl" = JUndefined.
Proof. cbv zeta. unfold prop. repeat split; reflexivity. Qed.

Lemma avatar_data_props (a : jsval) :
  let data : gmap string jsval := <["avatarUrl" := a]> ∅ in
  prop data "fullName" = JUndefined
  /\ prop data "phone" = JUndefined
  /\ prop data "isVerified" = JUndefined
  /\ prop data "tenantId" = JUndefined
  /\ prop data "googleId" = JUndefined
  /\ prop data "avatarUrl" = a.
Proof. cbv zeta. unfold prop. repeat split; reflexivity. Qed.

Lemma bind_update_profile (a b : jsval) :
  exists fullName phone,
    bind_update D (<["fullName" := a]> (<["phone" := b]> ∅))
    = Ok (mkBound fullName phone None None None None).
Proof.
  unfold bind_update.
  destruct (profile_data_props a b) as (-> & -> & -> & -> & -> & ->).
  unfold bind_field.
  destruct (decide (a = JUndefined)), (decide (b = JUndefined));
    simpl; eauto.
Qed.

Lemma bind_update_avatar (avatarUrl : string) :
  (exists ex, bind_update D (<["avatarUrl" := JStr avatarUrl]> ∅) = Throw ex)
  \/ bind_update D (<["avatarUrl" := JStr avatarUrl]> ∅)
     = Ok (mkBound None None None None None
                   (Some (Some (take_chars 500 avatarUrl)))).
Proof.
  unfold bind_update.
  destruct (avatar_data_props (JStr avatarUrl))
    as (-> & -> & -> & -> & -> & ->).
  unfold bind_field. simpl. unfold fit_varchar.
  destruct (all_spaces _); simpl; eauto.
Qed.

(** X7: whatever the request body holds, the profile handler writes at most
    the name and the phone of the caller's own rows: keys such as
    [isVerified], [googleId], [tenantId], [role] or [avatarUrl] in the body
    reach no column; a body with neither [fullName] nor [phone] writes
    nothing and answers null. The avatar handler writes the avatar of the
    caller's rows and nothing else; what it writes is the URL cut to the 500
    characters of the column, which is the URL itself when it fits. *)
Theorem profile_handlers_write_only_their_columns (userId : Z) (d : db) :
  (forall body,
     Forall2 (profile_edit userId) (users d)
       (users (snd (authController.updateProfile D userId body d))))
  /\ (forall body,
        prop body "fullName" = JUndefined -> prop body "phone" = JUndefined ->
        authController.updateProfile D userId body d = (Ok None, d))
  /\ (forall avatarUrl,
        Forall2 (avatar_edit userId (take_chars 500 avatarUrl)) (users d)
          (users (snd (authController.uploadAvatar D userId avatarUrl d))))
  /\ (forall avatarUrl,
        (String.length avatarUrl <= 500)%nat ->
        Forall2 (avatar_edit userId avatarUrl) (users d)
          (users (snd (authController.uploadAvatar D userId avatarUrl d)))).
Proof.
  assert (Hav : forall avatarUrl,
            Forall2 (avatar_edit userId (take_chars 500 avatarUrl)) (users d)
              (users (snd (authController.uploadAvatar D userId avatarUrl d)))).
  { intros avatarUrl. unfold authController.uploadAvatar, updateProfile.
    destruct (update_users userId (<["avatarUrl" := JStr avatarUrl]> ∅) d)
      as [-> | (b & _ & Hb & ->)].
    - apply Forall2_same. intros x. now left.
    - apply Forall2_fmap_self. intros x.
      destruct (decide (u_id x = userId)) as [E | E]; [| now left].
      right. split; [exact E |].
      destruct (bind_update_avatar avatarUrl) as [[ex Hx] | Hx];
        rewrite Hx in Hb; [discriminate |].
      injection Hb as <-. reflexivity. }
  split; [| split; [| split]].
  - intros body. unfold authController.updateProfile, updateProfile.
    set (a := prop body "fullName"). set (b := prop body "phone").
    destruct (update_users userId (<["fullName" := a]> (<["phone" := b]> ∅)) d)
      as [-> | (bd & _ & Hb & ->)].
    + apply Forall2_same. intros x. now left.
    + apply Forall2_fmap_self. intros x.
      destruct (decide (u_id x = userId)) as [E | E]; [| now left].
      right. split; [exact E |].
      destruct (bind_update_profile a b) as (fullName & phone & Hx).
      rewrite Hx in Hb. injection Hb as <-.
      unfold apply_update. simpl. eauto.
  - intros body Ha Hb. unfold authController.updateProfile, updateProfile.
    rewrite Ha, Hb. reflexivity.
  - exact Hav.
  - intros avatarUrl Hlen. specialize (Hav avatarUrl).
    now rewrite take_chars_short in Hav.
Qed.

End Updates.

(** An avatar URL of 501 characters: its first 500 are stored when the last
    is a space; when it is a letter the statement is rejected and the store
    is as it was. *)
Example avatar_longer_than_its_column :
  users (snd (authController.uploadAvatar Sample.plain 1
                (Sample.letters 500 +:+ " ") Sample.store))
  = [mkUser 1 "alice@x.com" (Some "$argon2id$password1") (Some "Alice") None
            "customer" None false None (Some (Sample.letters 500));
     Sample.fed]
  /\ authController.uploadAvatar Sample.plain 1 (Sample.letters 501)
                                 Sample.store
     = (Throw (DatabaseError "value too long for type character varying"),
        Sample.store).
Proof. split; vm_compute; reflexivity. Qed.

(** ** Inserting a user and finding it again *)

Section Create.
Context (D : Deps).

Lemma users_ok_inv (us : list user_row) :
  users_ok us = true ->
  NoDup (u_id <$> us) /\ NoDup (u_email <$> us)
  /\ NoDup (omap u_google_id us) /\ NoDup (omap u_phone us).
Proof.
  unfold users_ok. intros H.
  apply andb_prop in H as [H Hp]. apply andb_prop in H as [H Hg].
  apply andb_prop in H as [Hi He].
  apply bool_decide_eq_true in Hi, He, Hg, Hp. auto.
Qed.

Lemma users_ok_intro (us : list user_row) :
  NoDup (u_id <$> us) -> NoDup (u_email <$> us) ->
  NoDup (omap u_google_id us) -> NoDup (omap u_phone us) ->
  users_ok us = true.
Proof.
  intros Hi He Hg Hp. unfold users_ok.
  rewrite !andb_true_iff, !bool_decide_eq_true. auto.
Qed.

Lemma filter_okey_unique {A K} `{EqDecision K} (f : A -> option K)
  (l : list A) (x : A) (k : K) :
  NoDup (omap f l) -> x ∈ l -> f x = Some k ->
  filter (fun y => f y = Some k) l = [x].
Proof.
  induction l as [| y l IH]; intros Hnd Hin Hk;
    [now apply elem_of_nil in Hin |].
  csimpl in Hnd. apply elem_of_cons in Hin as [-> | Hin].
  - rewrite Hk in Hnd. apply NoDup_cons in Hnd as [Hy _].
    rewrite filter_cons_True by exact Hk. f_equal.
    apply filter_none. intros z Hz E. apply Hy, list_elem_of_omap. eauto.
  - assert (Hfy : f y <> Some k).
    { intros E. rewrite E in Hnd. apply NoDup_cons in Hnd as [Hy _].
      apply Hy, list_elem_of_omap. eauto. }
    rewrite filter_cons_False by exact Hfy. apply IH; try assumption.
    destruct (f y); [now apply NoDup_cons in Hnd as [_ ?] | assumption].
Qed.

(** [create], with the row it builds named. *)
Lemma create_eq (n : new_user) (d : db) :
  create D n d
  = match fit_column 255 (n_googleId n), fit_column 500 (n_avatarUrl n) with
    | Ok googleId, Ok avatarUrl =>
        let row := mkUser (users_seq d) (toLowerCase D (n_email n))
                     (n_passwordHash n) (n_fullName n)
                     (to_column D (js_or (n_phone n) JNull)) (n_role n)
                     (n_tenantId n)
                     (String.eqb (n_role n) "super_admin"
                      || truthy (of_column (n_googleId n)))
                     googleId avatarUrl in
        if users_ok (users d ++ [row])
        then (Ok (without_hash row),
              mkDb (users d ++ [row]) (refresh_tokens d) (users_seq d + 1)
                   (tokens_seq d))
        else (Throw (DatabaseError "unique_violation"),
              mkDb (users d) (refresh_tokens d) (users_seq d + 1)
                   (tokens_seq d))
    | Throw ex, _ => (Throw ex, d)
    | Ok _, Throw ex => (Throw ex, d)
    end.
Proof.
  unfold create, next_user_id, write_users. unfold_m.
  destruct (fit_column 255 (n_googleId n)) as [g | ex]; [| reflexivity].
  destruct (fit_column 500 (n_avatarUrl n)) as [a | ex]; [| reflexivity].
  simpl. now destruct (users_ok _).
Qed.

Lemma fit_column_Ok (w : nat) (c c' : option string) :
  fit_column w c = Ok c' -> c' = take_chars w <$> c.
Proof.
  destruct c as [s |]; simpl; [| now intros [= <-]].
  destruct (fit_varchar w s) as [s' |] eqn:E; [| discriminate].
  intros [= <-]. now rewrite (fit_varchar_Ok _ _ _ E).
Qed.

(** X11: a row that [create] has inserted is the last of the table, holds
    the lower-case form of the email, the hash it was given, and the Google
    id and the avatar URL it was given, each cut to the width of its column
    (255 and 500 characters), so as given when they fit; it is verified
    exactly when its role is 'super_admin' or the Google id given is not
    empty; it is what [findById] returns for its id (less the hash), what
    [findByEmail] returns for the email in any letter case, and what
    [findByGoogleId] returns for the Google id it holds; no earlier row
    shares its id or its email. *)
Theorem create_then_lookups (n : new_user) (d d' : db) (r : user_row) :
  create D n d = (Ok r, d') ->
  exists row,
    users d' = (users d ++ [row])%list
    /\ r = without_hash row
    /\ u_email row = toLowerCase D (n_email n)
    /\ u_password_hash row = n_passwordHash n
    /\ u_google_id row = take_chars 255 <$> n_googleId n
    /\ u_avatar_url row = take_chars 500 <$> n_avatarUrl n
    /\ (forall g, n_googleId n = Some g -> (String.length g <= 255)%nat ->
                  u_google_id row = n_googleId n)
    /\ u_is_verified row
       = (String.eqb (n_role n) "super_admin"
          || truthy (of_column (n_googleId n)))
    /\ findById (u_id r) d' = (Ok (Some r), d')
    /\ (forall e, toLowerCase D e = toLowerCase D (n_email n) ->
                  findByEmail D (JStr e) d' = (Ok (Some row), d'))
    /\ (forall g, u_google_id row = Some g ->
                  findByGoogleId D (JStr g) d' = (Ok (Some row), d'))
    /\ (forall u, u ∈ users d ->
                  u_id u <> u_id row /\ u_email u <> u_email row).
Proof.
  rewrite create_eq.
  destruct (fit_column 255 (n_googleId n)) as [g0 | ex] eqn:Eg;
    [| discriminate].
  destruct (fit_column 500 (n_avatarUrl n)) as [a0 | ex] eqn:Ea;
    [| discriminate].
  apply fit_column_Ok in Eg, Ea. cbv zeta.
  match goal with
  | |- context [users_ok (users d ++ [?x])] => set (row := x)
  end.
  destruct (users_ok _) eqn:Hok; [| discriminate].
  intros [= <- <-]. exists row.
  destruct (users_ok_inv _ Hok) as (Hi & He & Hg & _).
  assert (Hin : row ∈ (users d ++ [row])%list)
    by (apply elem_of_app; right; now left).
  split; [reflexivity |]. split; [reflexivity |]. split; [reflexivity |].
  split; [reflexivity |]. split; [exact Eg |]. split; [exact Ea |].
  split.
  { intros g E Hlen. change (u_google_id row) with g0.
    rewrite Eg, E. change (Some (take_chars 255 g) = Some g).
    now rewrite take_chars_short. }
  split; [reflexivity |]. split; [| split; [| split]].
  - rewrite findById_eq. simpl.
    change (users_seq d) with (u_id row).
    now rewrite (filter_key_unique u_id _ row Hi Hin).
  - intros e E. rewrite findByEmail_eq. simpl. rewrite E.
    change (toLowerCase D (n_email n)) with (u_email row).
    now rewrite (filter_key_unique u_email _ row He Hin).
  - intros g E. rewrite findByGoogleId_eq. simpl.
    now rewrite (filter_okey_unique u_google_id _ row g Hg Hin E).
  - intros u Hu. split.
    + rewrite fmap_app in Hi. apply NoDup_app in Hi as (_ & Hi & _).
      intros E. apply (Hi (u_id u)); [now apply list_elem_of_fmap_2 |].
      rewrite E. now left.
    + rewrite fmap_app in He. apply NoDup_app in He as (_ & He & _).
      intros E. apply (He (u_email u)); [now apply list_elem_of_fmap_2 |].
      rewrite E. now left.
Qed.

End Create.

(** ** What every operation keeps true of the users table *)

Section Invariant.
Context (D : Deps).
Hypothesis lower_idem :
  forall s, toLowerCase D (toLowerCase D s) = toLowerCase D s.

Lemma store_ok_frame (d d' : db) :
  users d' = users d -> users_seq d <= users_seq d' ->
  store_ok D d -> store_ok D d'.
Proof.
  unfold store_ok. intros -> Hs (Hok & He & Hf). repeat split; try assumption.
  eapply Forall_impl; [exact Hf |]. simpl. intros; lia.
Qed.

Lemma store_ok_map (f : user_row -> user_row) (d d' : db) :
  (forall u, u_id (f u) = u_id u) -> (forall u, u_email (f u) = u_email u) ->
  users d' = f <$> users d -> users_ok (users d') = true ->
  users_seq d' = users_seq d ->
  store_ok D d -> store_ok D d'.
Proof.
  unfold store_ok, emails_normal. intros Hi He Hu Hok Hs (_ & Hn & Hf).
  split; [exact Hok |]. rewrite Hu, Hs, !Forall_fmap. split.
  - eapply Forall_impl; [exact Hn |]. simpl. intros u E. now rewrite He.
  - eapply Forall_impl; [exact Hf |]. simpl. intros u E. now rewrite Hi.
Qed.

Lemma create_store_ok (n : new_user) (d : db) :
  store_ok D d -> store_ok D (snd (create D n d)).
Proof.
  intros H. rewrite create_eq.
  destruct (fit_column 255 (n_googleId n)) as [g | ex]; [| exact H].
  destruct (fit_column 500 (n_avatarUrl n)) as [a | ex]; [| exact H].
  cbv zeta. destruct (users_ok _) eqn:Hok; simpl.
  - destruct H as (_ & Hn & Hf). unfold store_ok, emails_normal. simpl.
    split; [exact Hok |]. rewrite !Forall_app, !Forall_singleton. simpl.
    repeat split; try apply lower_idem; try lia; try assumption.
    eapply Forall_impl; [exact Hf |]. simpl. intros; lia.
  - apply (store_ok_frame d); simpl; [reflexivity | lia | exact H].
Qed.

Lemma update_store_ok (i : Z) (data : gmap string jsval) (d : db) :
  store_ok D d -> store_ok D (snd (update D i data d)).
Proof.
  intros H. rewrite update_eq.
  destruct (no_fields data); [exact H |].
  destruct (bind_update D data) as [b | ex]; [| exact H]. cbv zeta.
  destruct (users_ok _) eqn:Hok; simpl; [| exact H].
  eapply (store_ok_map
            (fun u => if decide (u_id u = i) then apply_update b u else u) d);
    try reflexivity; try exact H; try exact Hok.
  - intros u. now destruct (decide _).
  - intros u. now destruct (decide _).
Qed.

Lemma issue_tokens_store_ok (now : Z) (rnd : string) (u : user_row) (d : db) :
  store_ok D d -> store_ok D (snd (issue_tokens D now rnd u d)).
Proof.
  intros H. rewrite issue_tokens_eq. simpl.
  apply (store_ok_frame d); simpl; [reflexivity | lia | exact H].
Qed.

(** [googleSignIn] writes through [update], [create] and the issue of
    tokens only. *)
Lemma googleSignIn_writes_through (P : db -> Prop) (now : Z)
  (rnd idToken : string) (d : db) :
  (forall i data d0, P d0 -> P (snd (update D i data d0))) ->
  (forall n d0, P d0 -> P (snd (create D n d0))) ->
  (forall u d0, P d0 -> P (snd (issue_tokens D now rnd u d0))) ->
  P d -> P (snd (googleSignIn D now rnd idToken d)).
Proof.
  intros Hu Hc Hi Hd. unfold googleSignIn.
  destruct (google_clientId D) as [[| c cs] |]; try exact Hd.
  destruct (verifyIdToken D idToken (String c cs)) as [payload | ex];
    [| exact Hd].
  destruct (g_email payload) as [[| c' email] |]; try exact Hd.
  unfold bind at 1. rewrite findByGoogleId_eq.
  destruct (head _) as [u |].
  { unfold_m. now apply Hi. }
  unfold bind at 1. unfold bind at 1. rewrite findByEmail_eq.
  match goal with
  | |- context [let (_, _) := ?m d in _] =>
      assert (Hm : P (snd (m d)));
      [| destruct (m d) as [[[u |] | ex] d0]; simpl in Hm ]
  end.
  - destruct (head _) as [u |]; [now apply Hu |].
    unfold bind.
    match goal with
    | |- context [create D ?n d] =>
        specialize (Hc n d Hd); destruct (create D n d) as [[u | ex] d0]
    end; exact Hc.
  - now apply Hi.
  - exact Hm.
  - exact Hm.
Qed.

(** X12: on a store that meets the constraints of its users table, holds
    only lower-case emails and whose id sequence is ahead of the ids in use,
    every operation of the service leaves such a store, whatever its
    arguments and whether it succeeds or fails (lower-casing a lower-case
    string is assumed to give it back). *)
Theorem store_ok_is_kept (d : db) :
  store_ok D d ->
  (forall salt email password fullName phone role,
     store_ok D (snd (register D salt email password fullName phone role d)))
  /\ (forall now rnd e p, store_ok D (snd (login D now rnd e p d)))
  /\ (forall now rnd idToken,
        store_ok D (snd (googleSignIn D now rnd idToken d)))
  /\ (forall now tok, store_ok D (snd (refreshAccessToken D now tok d)))
  /\ (forall tok, store_ok D (snd (logout D tok d)))
  /\ (forall userId, store_ok D (snd (logoutAll userId d)))
  /\ (forall userId data, store_ok D (snd (updateProfile D userId data d)))
  /\ (forall salt userId currentPassword newPassword,
        store_ok D
          (snd (changePassword D salt userId currentPassword newPassword d))).
Proof.
  intros H. repeat apply conj.
  - intros salt email password fullName phone role. unfold register.
    unfold bind at 1. rewrite findByEmail_eq.
    destruct (head _); [exact H |]. unfold bind.
    match goal with
    | |- context [create D ?n d] =>
        pose proof (create_store_ok n d H) as Hc;
        destruct (create D n d) as [[u | ex] d0]
    end; exact Hc.
  - intros now rnd e p.
    destruct (login D now rnd e p d) as [[res | ex] d'] eqn:E; simpl.
    + destruct (login_success_inv _ _ _ _ _ _ _ _ E)
        as (s & u & _ & _ & _ & _ & ->).
      apply (store_ok_frame d); simpl; [reflexivity | lia | exact H].
    + now rewrite (login_failure_inv _ _ _ _ _ _ _ _ E).
  - intros now rnd idToken.
    apply (googleSignIn_writes_through (store_ok D)); try exact H.
    + intros i data d0. apply update_store_ok.
    + intros n d0. apply create_store_ok.
    + intros u d0. apply issue_tokens_store_ok.
  - intros now tok. now rewrite refresh_reads_only.
  - intros [[| c s] |]; exact H.
  - intros userId. exact H.
  - intros userId data. apply update_store_ok, H.
  - intros salt userId currentPassword newPassword.
    destruct (changePassword_shape D salt userId currentPassword newPassword d)
      as [[ex ->] | ->]; simpl; [exact H |].
    eapply (store_ok_map
              (with_password userId (argon2_hash D salt newPassword)) d);
      try reflexivity; try exact H.
    + intros u. unfold with_password. now destruct (decide _).
    + intros u. unfold with_password. now destruct (decide _).
    + simpl. rewrite users_ok_with_password. apply H.
Qed.

End Invariant.

(** ** Google sign-in for a newcomer, and its failures *)

Section GoogleCreate.
Context (D : Deps).

Lemma nonempty_or_eq (x : option string) (fallback : jsval) :
  to_column D (js_or (opt_js x) fallback)
  = nonempty_or x (to_column D fallback).
Proof. now destruct x as [[| c s] |]. Qed.

Lemma head_filter_None {A} (P : A -> Prop) `{!forall x, Decision (P x)}
  (l : list A) :
  head (filter P l) = None -> forall x, x ∈ l -> ~ P x.
Proof.
  intros Hh x Hx HP. apply head_None in Hh.
  now apply (filter_nil_not_elem_of _ _ x Hh).
Qed.

(** A newcomer's row fits the table. *)
Lemma users_ok_newcomer (us : list user_row) (row : user_row) :
  users_ok us = true ->
  Forall (fun u => u_id u < u_id row) us ->
  (forall u, u ∈ us -> u_email u <> u_email row) ->
  (forall u, u ∈ us -> u_google_id u <> u_google_id row) ->
  u_google_id row <> None ->
  u_phone row = None ->
  users_ok (us ++ [row]) = true.
Proof.
  intros Hok Hf He Hg Hgs Hp.
  destruct (users_ok_inv _ Hok) as (Ni & Ne & Ng & Np).
  destruct (u_google_id row) as [g |] eqn:Eg; [| congruence].
  apply users_ok_intro.
  - rewrite fmap_app. apply NoDup_app. split; [exact Ni |]. split.
    + intros i Hi Hi'. apply list_elem_of_singleton in Hi'. subst i.
      apply list_elem_of_fmap in Hi as (u & E & Hu).
      rewrite Forall_forall in Hf. specialize (Hf u Hu). lia.
    + apply NoDup_singleton.
  - rewrite fmap_app. apply NoDup_app. split; [exact Ne |]. split.
    + intros e Hi Hi'. apply list_elem_of_singleton in Hi'. subst e.
      apply list_elem_of_fmap in Hi as (u & E & Hu). now apply (He u).
    + apply NoDup_singleton.
  - rewrite omap_app. csimpl. rewrite Eg. apply NoDup_app.
    split; [exact Ng |]. split.
    + intros k Hi Hi'. apply list_elem_of_singleton in Hi'. subst k.
      apply list_elem_of_omap in Hi as (u & Hu & E). now apply (Hg u).
    + apply NoDup_singleton.
  - rewrite omap_app. csimpl. rewrite Hp. now rewrite app_nil_r.
Qed.

(** X4: for a verified assertion whose subject id and email match no user,
    whose subject id fits the 255 characters of its column and whose
    picture, if any, fits the 500 of its own, on a store that meets its
    invariants, [googleSignIn] succeeds and appends exactly one row: the
    lower-case email, no password hash, role 'customer', the subject id,
    the assertion's name or else the local part of the email as display
    name, its picture if any, verified when the subject id is not empty. A
    second sign-in with that assertion, at any time, returns the same user
    and inserts nothing. *)
Theorem googleSignIn_creates_once (now now2 : Z)
  (rnd rnd2 idToken clientId email : string) (payload : google_payload)
  (d : db) :
  store_ok D d ->
  google_clientId D = Some clientId -> clientId <> "" ->
  verifyIdToken D idToken clientId = Ok payload ->
  g_email payload = Some email -> email <> "" ->
  (String.length (g_sub payload) <= 255)%nat ->
  (forall p, g_picture payload = Some p -> (String.length p <= 500)%nat) ->
  findByGoogleId D (JStr (g_sub payload)) d = (Ok None, d) ->
  findByEmail D (JStr email) d = (Ok None, d) ->
  let row := google_row D (users_seq d) email payload in
  exists res d',
    googleSignIn D now rnd idToken d = (Ok res, d')
    /\ users d' = (users d ++ [row])%list
    /\ l_user res = view_of row
    /\ exists res2 d2,
         googleSignIn D now2 rnd2 idToken d' = (Ok res2, d2)
         /\ l_user res2 = l_user res
         /\ users d2 = users d'.
Proof.
  intros (Hok & _ & Hfresh) Hc Hcne Hv He Hene Hlg Hlp Hg Hem row.
  destruct (nonempty_string _ Hcne) as (cc & cs & ->).
  rewrite findByGoogleId_eq in Hg. rewrite findByEmail_eq in Hem.
  injection Hg as Hg. injection Hem as Hem.
  assert (Hrow : users_ok (users d ++ [row]) = true).
  { apply users_ok_newcomer; try assumption; try reflexivity.
    - intros u Hu E. now apply (head_filter_None _ _ Hem u Hu).
    - intros u Hu E. now apply (head_filter_None _ _ Hg u Hu).
    - discriminate. }
  assert (Hcreate :
    create D (mkNewUser email None
                (to_column D (js_or (opt_js (g_name payload))
                                    (JStr (local_part email))))
                JUndefined "customer" None (Some (g_sub payload))
                (to_column D (js_or (opt_js (g_picture payload)) JNull))) d
    = (Ok (without_hash row),
       mkDb (users d ++ [row]) (refresh_tokens d) (users_seq d + 1)
            (tokens_seq d))).
  { rewrite create_eq. simpl n_googleId. simpl n_avatarUrl.
    rewrite (fit_column_short 255 (Some (g_sub payload)))
      by (now intros s [= <-]).
    rewrite !nonempty_or_eq.
    rewrite (fit_column_short 500 (nonempty_or (g_picture payload) _)).
    2: { intros s. destruct (g_picture payload) as [[| pc ps] |];
           try discriminate. intros [= <-]. now apply Hlp. }
    cbv zeta. simpl.
    fold (google_row D (users_seq d) email payload). fold row.
    now rewrite Hrow. }
  assert (Hrg : u_google_id row = Some (g_sub payload)) by reflexivity.
  clearbody row.
  destruct (nonempty_string _ Hene) as (ec & es & ->).
  eexists _, _. split; [| split; [| split]].
  - unfold googleSignIn. rewrite Hc, Hv, He.
    unfold bind at 1. rewrite findByGoogleId_eq, Hg.
    unfold bind at 1. unfold bind at 1. rewrite findByEmail_eq, Hem.
    unfold bind at 1. rewrite Hcreate. unfold ret at 1.
    rewrite issue_tokens_eq. reflexivity.
  - reflexivity.
  - reflexivity.
  - eexists _, _. split.
    + unfold googleSignIn. rewrite Hc, Hv, He.
      unfold bind at 1. rewrite findByGoogleId_eq. simpl.
      rewrite filter_app.
      rewrite (filter_none _ (users d)) by exact (head_filter_None _ _ Hg).
      rewrite filter_cons_True by exact Hrg. simpl.
      unfold bind, ret. rewrite issue_tokens_eq. reflexivity.
    + split; reflexivity.
Qed.

(** X5: [googleSignIn] stops before it reads or writes the store when
    sign-in is not configured (no client id, or an empty one), when
    [verifyIdToken] throws, whatever it throws, and when the verified
    assertion has no email or an empty one; the three cases give a
    BadRequestError, an UnauthorizedError and a BadRequestError with fixed
    messages, and the store is as it was. *)
Theorem googleSignIn_fails_closed (now : Z) (rnd idToken : string) (d : db) :
  (google_clientId D = None \/ google_clientId D = Some "" ->
   googleSignIn D now rnd idToken d
   = (Throw (BadRequestError "Google Sign-In is not configured."), d))
  /\ (forall clientId ex,
        google_clientId D = Some clientId -> clientId <> "" ->
        verifyIdToken D idToken clientId = Throw ex ->
        googleSignIn D now rnd idToken d
        = (Throw (UnauthorizedError "Invalid Google token."), d))
  /\ (forall clientId payload,
        google_clientId D = Some clientId -> clientId <> "" ->
        verifyIdToken D idToken clientId = Ok payload ->
        g_email payload = None \/ g_email payload = Some "" ->
        googleSignIn D now rnd idToken d
        = (Throw (BadRequestError
                    "Google account does not have an email address."), d)).
Proof.
  repeat apply conj.
  - intros [H | H]; unfold googleSignIn; now rewrite H.
  - intros clientId ex Hc Hne Hv.
    destruct (nonempty_string _ Hne) as (c & s & ->).
    unfold googleSignIn. now rewrite Hc, Hv.
  - intros clientId payload Hc Hne Hv He.
    destruct (nonempty_string _ Hne) as (c & s & ->).
    unfold googleSignIn. rewrite Hc, Hv.
    destruct He as [-> | ->]; reflexivity.
Qed.

End GoogleCreate.

(** ** Operations in sequence *)

Section Sequences.
Context (D : Deps).

(** X10: after a [login] that succeeded on a store meeting its constraints,
    a refresh with the token it returned, which is not empty and whose hash
    no earlier row carries, is accepted at every instant up to the returned
    expiry, and answers with the id, email and role of the user who logged
    in. *)
Theorem login_then_refresh (now now' : Z) (rnd : string) (e p : jsval)
  (d d' : db) (res : login_result) :
  users_ok (users d) = true ->
  login D now rnd e p d = (Ok res, d') ->
  rnd <> "" ->
  (forall t, t ∈ refresh_tokens d -> rt_token_hash t <> hashToken D rnd) ->
  now' <= l_expiresAt res ->
  exists r,
    refreshAccessToken D now' (Some rnd) d' = (Ok r, d')
    /\ fv_id (r_user r) = v_id (l_user res)
    /\ fv_email (r_user r) = v_email (l_user res)
    /\ fv_role (r_user r) = v_role (l_user res).
Proof.
  intros Hok Hl Hne Hfresh Hx.
  destruct (login_success_inv _ _ _ _ _ _ _ _ Hl)
    as (s & u & -> & Hh & Hv & -> & ->).
  destruct (nonempty_string _ Hne) as (c & t & ->).
  destruct (users_ok_inv _ Hok) as (Hi & _).
  assert (Hin : u ∈ users d).
  { apply head_Some_elem_of, list_elem_of_filter in Hh. tauto. }
  simpl in Hx. rewrite refresh_cases. cbv zeta.
  unfold findRefreshToken. simpl.
  rewrite filter_app, (filter_none _ (refresh_tokens d)) by exact Hfresh.
  rewrite filter_cons_True by reflexivity. simpl.
  unfold join_users at 1. simpl.
  rewrite (filter_key_unique u_id (users d) u Hi Hin). simpl.
  apply Z.ltb_ge in Hx. rewrite Hx. eexists. split; [reflexivity |].
  repeat split; reflexivity.
Qed.

Lemma changePassword_success (salt : string) (userId : Z)
  (currentPassword : jsval) (newPassword : string) (d : db)
  (row user : user_row) :
  users_ok (users d) = true ->
  findById userId d = (Ok (Some row), d) ->
  findByEmail D (JStr (u_email row)) d = (Ok (Some user), d) ->
  (truthy (of_column (u_password_hash user)) = true ->
   argon2_verify D (u_password_hash user) currentPassword = Ok true) ->
  changePassword D salt userId currentPassword newPassword d
  = (Ok "Password changed successfully.",
     mkDb (with_password userId (argon2_hash D salt newPassword) <$> users d)
          (refresh_tokens d) (users_seq d) (tokens_seq d)).
Proof.
  intros Hok Hid Hem Hv.
  destruct (changePassword_shape D salt userId currentPassword newPassword d)
    as [[ex E] | E]; [| exact E].
  exfalso. revert E. unfold changePassword.
  unfold bind at 1. rewrite Hid. unfold bind at 1. unfold lift at 1.
  unfold bind at 1. rewrite Hem.
  unfold updatePassword, write_users. unfold_m.
  pose proof (users_ok_with_password userId (argon2_hash D salt newPassword)
                (users d)) as Hk.
  unfold with_password in Hk.
  destruct (truthy (of_column (u_password_hash user))).
  - rewrite (Hv eq_refl). simpl. rewrite Hk, Hok. discriminate.
  - rewrite Hk, Hok. discriminate.
Qed.

(** X9: on a store that meets its invariants, for a user who has no
    password hash or whose current password the verifier accepts,
    [changePassword] succeeds, and a [login] with the user's email and the
    new password then succeeds for that user, provided the hasher verifies
    its own digests. *)
Theorem changePassword_then_login (salt rnd : string) (now : Z)
  (currentPassword : jsval) (newPassword : string) (u : user_row) (d : db) :
  (forall s p, argon2_verify D (Some (argon2_hash D s p)) (JStr p) = Ok true) ->
  store_ok D d ->
  u ∈ users d ->
  (truthy (of_column (u_password_hash u)) = true ->
   argon2_verify D (u_password_hash u) currentPassword = Ok true) ->
  exists d',
    changePassword D salt (u_id u) currentPassword newPassword d
    = (Ok "Password changed successfully.", d')
    /\ exists res d'',
         login D now rnd (JStr (u_email u)) (JStr newPassword) d'
         = (Ok res, d'')
         /\ v_id (l_user res) = u_id u
         /\ v_email (l_user res) = u_email u.
Proof.
  intros Hlaw (Hok & Hn & _) Hin Hv.
  destruct (users_ok_inv _ Hok) as (Hi & He & _).
  assert (Hlow : toLowerCase D (u_email u) = u_email u).
  { unfold emails_normal in Hn. rewrite Forall_forall in Hn. now apply Hn. }
  assert (Hid : findById (u_id u) d = (Ok (Some (without_hash u)), d)).
  { rewrite findById_eq.
    now rewrite (filter_key_unique u_id (users d) u Hi Hin). }
  assert (Hem : findByEmail D (JStr (u_email u)) d = (Ok (Some u), d)).
  { rewrite findByEmail_eq, Hlow.
    now rewrite (filter_key_unique u_email (users d) u He Hin). }
  eexists. split.
  - apply (changePassword_success salt (u_id u) currentPassword newPassword d
             (without_hash u) u Hok Hid Hem Hv).
  - unfold login. unfold bind at 1. rewrite findByEmail_eq, Hlow. simpl.
    rewrite (filter_fmap_key u_email
               (with_password (u_id u) (argon2_hash D salt newPassword)))
      by (intros x; unfold with_password; now destruct (decide _)).
    rewrite (filter_key_unique u_email (users d) u He Hin). simpl.
    unfold with_password at 1 2. rewrite decide_True by reflexivity.
    unfold bind, lift. simpl. rewrite Hlaw. simpl.
    rewrite issue_tokens_eq. eexists _, _. split; [reflexivity |].
    split; reflexivity.
Qed.

Lemma register_taken (salt email password : string)
  (fullName : option string) (phone : jsval) (role : option string)
  (d : db) (u : user_row) :
  u ∈ users d -> u_email u = toLowerCase D email ->
  register D salt email password fullName phone role d
  = (Throw AccountExists, d).
Proof.
  intros Hin He. unfold register. unfold bind at 1. rewrite findByEmail_eq.
  destruct (head _) eqn:Hh; [reflexivity |].
  exfalso. now apply (head_filter_None _ _ Hh u Hin).
Qed.

(** X14: the register handler awaits the audit log after the service has
    inserted the user; if [createAuditLog] throws, the handler throws that
    error although the row is in the table, and a new attempt with the same
    email, in any letter case, fails with AccountExists. *)
Theorem register_handler_fails_after_insert (salt salt2 : string)
  (body body2 : authController.register_body) (d d1 : db)
  (v : register_view) (ex : exn) :
  register D salt (authController.b_email body)
    (authController.b_password body) (Some (authController.b_fullName body))
    (authController.b_phone body)
    (Some (authController.userRole (authController.b_role body))) d
  = (Ok v, d1) ->
  createAuditLog D "REGISTER" (rv_id v) = Throw ex ->
  toLowerCase D (authController.b_email body2)
  = toLowerCase D (authController.b_email body) ->
  authController.register D salt body d = (Throw ex, d1)
  /\ (exists u, users d1 = (users d ++ [u])%list
                /\ u_email u = toLowerCase D (authController.b_email body))
  /\ authController.register D salt2 body2 d1 = (Throw AccountExists, d1).
Proof.
  intros Hreg Haudit Hsame.
  destruct (register_success _ _ _ _ _ _ _ _ _ _ Hreg)
    as (u & Hu & _ & He & _).
  split; [| split].
  - rewrite controller_register_eq, Hreg, Haudit. reflexivity.
  - eauto.
  - rewrite controller_register_eq.
    rewrite (register_taken _ _ _ _ _ _ d1 u); [reflexivity | | congruence].
    rewrite Hu. apply elem_of_app. right. now left.
Qed.

End Sequences.

(** ** The default display name *)

(** X17: [email.split('@')[0]], the display name [googleSignIn] falls back
    on, is the part of the email before its first '@': for a string without
    '@' followed by '@' and anything it is that string, and for a string
    without '@' it is the whole string. *)
Theorem local_part_is_the_prefix_before_at (a b : string) :
  Forall (fun c => c <> "@"%char) (String.list_ascii_of_string a) ->
  local_part (a +:+ String "@" b) = a /\ local_part a = a.
Proof.
  induction a as [| c a IH]; intros H; [split; reflexivity |].
  simpl in H. apply Forall_cons in H as [Hc H].
  destruct (IH H) as [IH1 IH2]. simpl.
  apply Ascii.eqb_neq in Hc. rewrite Hc. now rewrite IH1, IH2.
Qed.

(** ** The further properties at concrete inputs *)

Lemma Sample_lower_idem (s : string) :
  Sample.lower (Sample.lower s) = Sample.lower s.
Proof.
  induction s as [| c s IH]; [reflexivity |]. simpl. rewrite IH. f_equal.
  destruct c as [[] [] [] [] [] [] [] []]; reflexivity.
Qed.

Lemma Sample_store_ok : store_ok Sample.plain Sample.store.
Proof.
  unfold store_ok, emails_normal. split; [reflexivity |].
  split; repeat constructor.
Qed.

Lemma logout_then_refresh_fails_witness :
  refreshAccessToken Sample.plain 500 (Some "tok-a")
                     (snd (logout Sample.plain (Some "tok-a") Sample.store))
  = (Throw TokenRevoked, snd (logout Sample.plain (Some "tok-a") Sample.store)).
Proof.
  destruct (logout_then_refresh_fails Sample.plain 500 "tok-a" Sample.store
              ltac:(discriminate)) as (_ & _ & _ & H).
  eapply H. reflexivity.
Defined.

Lemma logout_idempotent_and_local_witness :
  fst (refreshAccessToken Sample.plain 500 (Some "tok-f")
         (snd (logout Sample.plain (Some "tok-a") Sample.store)))
  = fst (refreshAccessToken Sample.plain 500 (Some "tok-f") Sample.store)
  /\ snd (logout Sample.plain None Sample.store) = Sample.store.
Proof.
  split.
  - destruct (logout_idempotent_and_local Sample.plain (Some "tok-a")
                Sample.store) as (_ & _ & _ & _ & H).
    apply (H 500 "tok-a" "tok-f" eq_refl); discriminate.
  - destruct (logout_idempotent_and_local Sample.plain None Sample.store)
      as (_ & H & _).
    apply H. now left.
Defined.

Lemma cleanup_removes_only_terminal_rows_witness :
  (exists r,
     refreshAccessToken Sample.plain 1000 (Some "tok-a")
                        (snd (cleanupExpiredTokens 1000 Sample.store))
     = (Ok r, snd (cleanupExpiredTokens 1000 Sample.store)))
  /\ refreshAccessToken Sample.plain 2000 (Some "tok-r")
                        (snd (cleanupExpiredTokens 1000 Sample.store))
     = (Throw InvalidToken, snd (cleanupExpiredTokens 1000 Sample.store)).
Proof.
  destruct (cleanup_removes_only_terminal_rows Sample.plain 1000 Sample.store)
    as (_ & _ & _ & H & _ & Hu).
  split; [eexists; apply H; reflexivity |].
  apply (Hu 2000 "tok-r" ltac:(discriminate)).
  intros row Hrow Hh.
  apply elem_of_cons in Hrow as [-> | Hrow]; [discriminate |].
  apply elem_of_cons in Hrow as [-> | Hrow]; [discriminate |].
  apply elem_of_cons in Hrow as [-> | Hrow]; [now right |].
  now apply elem_of_nil in Hrow.
Defined.

Lemma refresh_succeeds_only_for_live_stored_token_witness :
  exists row u,
    row ∈ refresh_tokens Sample.store
    /\ rt_token_hash row = hashToken Sample.plain "tok-f"
    /\ rt_is_revoked row = false
    /\ u ∈ users Sample.store
    /\ u_id u = rt_user_id row.
Proof.
  edestruct (refresh_succeeds_only_for_live_stored_token Sample.plain 500
               (Some "tok-f") Sample.store)
    as (t & row & u & Et & _ & H1 & H2 & H3 & _ & H5 & H6 & _);
    [reflexivity |].
  injection Et as <-. exists row, u. auto.
Defined.

Lemma login_succeeds_only_when_verified_witness :
  snd (login Sample.plain 1000 "rnd" (JStr "alice@x.com") (JStr "wrong")
             Sample.store)
  = Sample.store.
Proof.
  destruct (login_succeeds_only_when_verified Sample.plain 1000 "rnd"
              (JStr "alice@x.com") (JStr "wrong") Sample.store) as [H _].
  eapply H. reflexivity.
Defined.

Lemma changePassword_touches_only_the_hash_witness :
  snd (changePassword Sample.plain "salt" 1 (JStr "wrong") "password2"
                      Sample.store)
  = Sample.store
  /\ users (snd (changePassword Sample.plain "salt" 1 (JStr "password1")
                                "password2" Sample.store))
     = with_password 1 "$argon2id$password2" <$> users Sample.store.
Proof.
  split.
  - destruct (changePassword_touches_only_the_hash Sample.plain "salt" 1
                (JStr "wrong") "password2" Sample.store) as (_ & H & _).
    eapply H. reflexivity.
  - destruct (changePassword_touches_only_the_hash Sample.plain "salt" 1
                (JStr "password1") "password2" Sample.store)
      as (_ & _ & H & _).
    eapply H. reflexivity.
Defined.


Lemma profile_handlers_write_only_their_columns_witness :
  authController.updateProfile Sample.plain 1
    (<["role" := JStr "super_admin"]> (<["isVerified" := JBool true]> ∅))
    Sample.store
  = (Ok None, Sample.store)
  /\ Forall2 (avatar_edit 1 "new.png") (users Sample.store)
       (users (snd (authController.uploadAvatar Sample.plain 1 "new.png"
                      Sample.store))).
Proof.
  destruct (profile_handlers_write_only_their_columns Sample.plain 1
              Sample.store) as (_ & H & _ & Ha).
  split; [apply H; reflexivity |].
  apply Ha. simpl. lia.
Defined.

Lemma create_then_lookups_witness :
  exists row d',
    findByEmail Sample.plain (JStr "DAVE@x.com") d' = (Ok (Some row), d')
    /\ u_email row = "dave@x.com"
    /\ u_is_verified row = false.
Proof.
  edestruct (create_then_lookups Sample.plain
               (mkNewUser "Dave@X.com" (Some "h") (Some "Dave") JUndefined
                          "customer" None None None) Sample.store)
    as (row & _ & _ & He & _ & _ & _ & _ & Hv & _ & Hf & _);
    [vm_compute; reflexivity |].
  exists row. eexists. split; [apply Hf; reflexivity |].
  split; [exact He | exact Hv].
Defined.

Lemma store_ok_is_kept_witness :
  store_ok Sample.plain
    (snd (register Sample.plain "salt" "Dave@X.com" "password1" (Some "Dave")
                   JUndefined None Sample.store)).
Proof.
  destruct (store_ok_is_kept Sample.plain Sample_lower_idem Sample.store
              Sample_store_ok) as (H & _).
  apply H.
Defined.

Lemma googleSignIn_creates_once_witness :
  exists res d',
    googleSignIn Sample.google_newcomer 1000 "rnd" "id-token" Sample.store
    = (Ok res, d')
    /\ users d'
       = (users Sample.store
          ++ [mkUser 3 "carol.jones@x.com" None (Some "Carol.Jones") None
                     "customer" None true (Some "g-9") (Some "carol.png")])%list.
Proof.
  destruct (googleSignIn_creates_once Sample.google_newcomer 1000 2000 "rnd"
              "rnd2" "id-token" "client-1" "Carol.Jones@X.com" Sample.newcomer
              Sample.store Sample_store_ok eq_refl ltac:(discriminate) eq_refl
              eq_refl ltac:(discriminate) ltac:(simpl; lia)
              ltac:(intros p [= <-]; simpl; lia) eq_refl eq_refl)
    as (res & d' & H1 & H2 & _).
  exists res, d'. split; [exact H1 | exact H2].
Defined.

Lemma googleSignIn_fails_closed_witness :
  googleSignIn Sample.plain 1000 "rnd" "id-token" Sample.store
  = (Throw (BadRequestError "Google Sign-In is not configured."), Sample.store).
Proof.
  destruct (googleSignIn_fails_closed Sample.plain 1000 "rnd" "id-token"
              Sample.store) as (H & _).
  apply H. now left.
Defined.

Lemma login_then_refresh_witness :
  exists r d',
    refreshAccessToken Sample.plain 604801000 (Some "rnd") d' = (Ok r, d')
    /\ fv_email (r_user r) = "alice@x.com".
Proof.
  edestruct (login_then_refresh Sample.plain 1000 604801000 "rnd"
               (JStr "alice@x.com") (JStr "password1") Sample.store)
    as (r & Hr & _ & He & _);
    [reflexivity | reflexivity | discriminate | | simpl; lia |].
  - intros t Ht.
    apply elem_of_cons in Ht as [-> | Ht]; [discriminate |].
    apply elem_of_cons in Ht as [-> | Ht]; [discriminate |].
    apply elem_of_cons in Ht as [-> | Ht]; [discriminate |].
    now apply elem_of_nil in Ht.
  - exists r. eexists. split; [exact Hr | exact He].
Defined.

Lemma changePassword_then_login_witness :
  exists d' res d'',
    changePassword Sample.plain "salt" 2 JUndefined "password2" Sample.store
    = (Ok "Password changed successfully.", d')
    /\ login Sample.plain 1000 "rnd" (JStr "fed@x.com") (JStr "password2") d'
       = (Ok res, d'').
Proof.
  destruct (changePassword_then_login Sample.plain "salt" "rnd" 1000
              JUndefined "password2" Sample.fed Sample.store)
    as (d' & H1 & res & d'' & H2 & _).
  - intros s p. simpl. now rewrite String.eqb_refl.
  - exact Sample_store_ok.
  - right. now left.
  - discriminate.
  - exists d', res, d''. split; [exact H1 | exact H2].
Defined.

Lemma register_handler_fails_after_insert_witness :
  authController.register Sample.audit_down "salt2"
    (authController.mkRegisterBody "BOB@x.com" "password2" "Robert"
                                   JUndefined JUndefined)
    Sample.after_bob
  = (Throw AccountExists, Sample.after_bob).
Proof.
  apply (register_handler_fails_after_insert Sample.audit_down "salt" "salt2"
           (authController.mkRegisterBody "Bob@X.com" "password1" "Bob"
                                          JUndefined JUndefined)
           (authController.mkRegisterBody "BOB@x.com" "password2" "Robert"
                                          JUndefined JUndefined)
           Sample.empty Sample.after_bob
           (mkRegisterView 1 "bob@x.com" (Some "Bob") "customer")
           (DatabaseError "audit_logs"));
    reflexivity.
Defined.

Lemma local_part_is_the_prefix_before_at_witness :
  local_part "carol.jones@x.com" = "carol.jones".
Proof.
  apply (local_part_is_the_prefix_before_at "carol.jones" "x.com").
  repeat constructor; discriminate.
Defined.
